(** * Event reminder bot: the row parser, the message formatter, the
    announcement check and the [!excel] command, embedded from [main.py].

    Text is a [string] of characters; the character classes below are the
    ASCII part of what Python's [str] methods use (a character above 127 is
    an ordinary character here: no space, no digit, no case).  A [datetime]
    has no microseconds and no time zone.  Whatever [main.py] prints is
    left out, except that each function reports which branch it took. *)

From Stdlib Require Import ZArith List String Ascii Lia Bool DecimalString.
From stdpp Require Import base gmap sets list strings.
From Stdlib Require Import DecimalZ DecimalPos.
Import ListNotations.
Local Open Scope string_scope.

(** ** Python's [str] operations used by the program *)
Module PyStr.

(** [c.isspace()]: tab, line feed, vertical tab, form feed, carriage
    return, the four separators 0x1c-0x1f, and the space. *)
Definition is_space (c : ascii) : bool :=
  let n := nat_of_ascii c in
  ((9 <=? n)%nat && (n <=? 13)%nat) || ((28 <=? n)%nat && (n <=? 32)%nat).

Definition is_digit (c : ascii) : bool :=
  let n := nat_of_ascii c in (48 <=? n)%nat && (n <=? 57)%nat.

Definition digit_val (c : ascii) : Z := Z.of_nat (nat_of_ascii c - 48).

Definition lower_char (c : ascii) : ascii :=
  let n := nat_of_ascii c in
  if (65 <=? n)%nat && (n <=? 90)%nat then ascii_of_nat (n + 32) else c.

(** [s.lower()] *)
Fixpoint lower (s : string) : string :=
  match s with
  | EmptyString => EmptyString
  | String c r => String (lower_char c) (lower r)
  end.

(** [c in s] for a one-character [c] *)
Fixpoint contains (c : ascii) (s : string) : bool :=
  match s with
  | EmptyString => false
  | String c' r => Ascii.eqb c' c || contains c r
  end.

(** [s.startswith(c)] for a one-character [c] *)
Definition startswith (c : ascii) (s : string) : bool :=
  match s with
  | EmptyString => false
  | String c' _ => Ascii.eqb c' c
  end.

(** [needle in s] for a text [needle] *)
Fixpoint contains_str (needle s : string) : bool :=
  String.prefix needle s ||
  match s with
  | EmptyString => false
  | String _ r => contains_str needle r
  end.

(** [s.split(sep)] for a one-character separator: every occurrence
    cuts, and the result always has at least one part. *)
Fixpoint split (sep : ascii) (s : string) : list string :=
  match s with
  | EmptyString => [EmptyString]
  | String c r =>
      if Ascii.eqb c sep then EmptyString :: split sep r
      else match split sep r with
           | [] => [String c EmptyString]
           | w :: ws => String c w :: ws
           end
  end.

(** [s.split()]: the maximal runs of characters that are not spaces. *)
Fixpoint split_ws (s : string) : list string :=
  match s with
  | EmptyString => []
  | String c r =>
      if is_space c then split_ws r
      else match r with
           | EmptyString => [String c EmptyString]
           | String c' _ =>
               if is_space c' then String c EmptyString :: split_ws r
               else match split_ws r with
                    | [] => [String c EmptyString]
                    | w :: ws => String c w :: ws
                    end
           end
  end.

Fixpoint lstrip (s : string) : string :=
  match s with
  | EmptyString => EmptyString
  | String c r => if is_space c then lstrip r else s
  end.

Fixpoint rstrip (s : string) : string :=
  match s with
  | EmptyString => EmptyString
  | String c r =>
      match rstrip r with
      | EmptyString => if is_space c then EmptyString else String c EmptyString
      | r' => String c r'
      end
  end.

(** [s.strip()] *)
Definition strip (s : string) : string := rstrip (lstrip s).

(** [sep.join(parts)] *)
Fixpoint join (sep : string) (parts : list string) : string :=
  match parts with
  | [] => EmptyString
  | [p] => p
  | p :: ps => p ++ sep ++ join sep ps
  end.

(** The digits of a decimal literal: digits, with single underscores
    allowed between two digits. [after_digit] tells whether the
    previous character was a digit. *)
Fixpoint int_digits (acc : Z) (after_digit : bool) (s : string) : option Z :=
  match s with
  | EmptyString => if after_digit then Some acc else None
  | String c r =>
      if is_digit c then int_digits (10 * acc + digit_val c) true r
      else if Ascii.eqb c "_" then
             (if after_digit then int_digits acc false r else None)
           else None
  end.

(** The white space that [int] drops around a literal: tab, line feed,
    vertical tab, form feed, carriage return and the space.  The four
    separators 0x1c-0x1f, which [strip] and [split] treat as spaces,
    are no spaces here. *)
Definition is_int_space (c : ascii) : bool :=
  let n := nat_of_ascii c in
  ((9 <=? n)%nat && (n <=? 13)%nat) || (n =? 32)%nat.

Fixpoint int_lstrip (s : string) : string :=
  match s with
  | EmptyString => EmptyString
  | String c r => if is_int_space c then int_lstrip r else s
  end.

Fixpoint int_rstrip (s : string) : string :=
  match s with
  | EmptyString => EmptyString
  | String c r =>
      match int_rstrip r with
      | EmptyString => if is_int_space c then EmptyString else String c EmptyString
      | r' => String c r'
      end
  end.

(** The number of digits of a literal. *)
Fixpoint count_digits (s : string) : Z :=
  match s with
  | EmptyString => 0
  | String c r => ((if is_digit c then 1 else 0) + count_digits r)%Z
  end.

(** [sys.int_info.default_max_str_digits]: a literal of more digits is
    refused. *)
Definition MAX_STR_DIGITS : Z := 4300.

Definition int_literal (s : string) : option Z :=
  if (MAX_STR_DIGITS <? count_digits s)%Z then None else int_digits 0 false s.

(** [int(s)]: the white space around the literal is dropped, one sign
    is allowed; [None] stands for [ValueError]. *)
Definition int (s : string) : option Z :=
  match int_rstrip (int_lstrip s) with
  | String "-" r => option_map Z.opp (int_literal r)
  | String "+" r => int_literal r
  | t => int_literal t
  end.

(** [str(z)] for an integer *)
Definition str_of_Z (z : Z) : string := NilZero.string_of_int (Z.to_int z).

(** [s.zfill(width)]-style padding of a non-negative number, as the
    [%m] and [%d] fields of [strftime] and the fields of [str(dt)]
    print it. *)
Definition zpad (width : nat) (z : Z) : string :=
  let s := str_of_Z z in
  String.concat "" (repeat "0" (width - String.length s)) ++ s.

Definition newline : ascii := ascii_of_nat 10.

End PyStr.

(** ** The [datetime] values and operations used by the program *)
Module PyDate.
Local Open Scope Z_scope.

(** [datetime.date] *)
Record date := mkdate { dyear : Z; dmonth : Z; dday : Z }.

(** [datetime.datetime] *)
Record datetime := mkdatetime
  { year : Z; month : Z; day : Z; hour : Z; minute : Z; second : Z }.

#[global] Instance date_eq_dec : EqDecision date.
Proof. solve_decision. Defined.

#[global] Instance datetime_eq_dec : EqDecision datetime.
Proof. solve_decision. Defined.

(** [dt.date()]: the calendar date, the time of day dropped *)
Definition to_date (dt : datetime) : date :=
  mkdate (year dt) (month dt) (day dt).

Definition MINYEAR : Z := 1.
Definition MAXYEAR : Z := 9999.

Definition is_leap (y : Z) : bool :=
  (y mod 4 =? 0) && (negb (y mod 100 =? 0) || (y mod 400 =? 0)).

Definition days_in_month (y m : Z) : Z :=
  match m with
  | 2 => if is_leap y then 29 else 28
  | 4 | 6 | 9 | 11 => 30
  | _ => 31
  end.

Definition valid_date (y m d : Z) : bool :=
  (MINYEAR <=? y) && (y <=? MAXYEAR) && (1 <=? m) && (m <=? 12) &&
  (1 <=? d) && (d <=? days_in_month y m).

(** [datetime(y, m, d)]: midnight of that day; [None] stands for the
    [ValueError] of a date that does not exist. *)
Definition datetime_new (y m d : Z) : option datetime :=
  if valid_date y m d then Some (mkdatetime y m d 0 0 0) else None.

(** [d + timedelta(days=1)]; [None] stands for the [OverflowError]
    past the last day of year 9999. *)
Definition next_day (d : date) : option date :=
  if dday d <? days_in_month (dyear d) (dmonth d)
  then Some (mkdate (dyear d) (dmonth d) (dday d + 1))
  else if dmonth d <? 12 then Some (mkdate (dyear d) (dmonth d + 1) 1)
  else if dyear d <? MAXYEAR then Some (mkdate (dyear d + 1) 1 1)
  else None.

(** [(now + timedelta(days=1)).date()] *)
Definition tomorrow_of (now : datetime) : option date :=
  next_day (to_date now).

(** The proleptic Gregorian ordinal of a date ([date.toordinal()]),
    day 1 being 0001-01-01. *)
Definition days_before_year (y : Z) : Z :=
  let p := y - 1 in p * 365 + p / 4 - p / 100 + p / 400.

Fixpoint days_before_month_from (y : Z) (m : nat) : Z :=
  match m with
  | O => 0
  | S k => days_before_month_from y k + days_in_month y (Z.of_nat (S k))
  end.

Definition days_before_month (y m : Z) : Z :=
  days_before_month_from y (Z.to_nat (m - 1)).

Definition toordinal (d : date) : Z :=
  days_before_year (dyear d) + days_before_month (dyear d) (dmonth d) + dday d.

(** [d.weekday()]: Monday is 0 *)
Definition weekday (d : date) : Z := (toordinal d + 6) mod 7.

Definition day_name (w : Z) : string :=
  match w with
  | 0 => "Monday" | 1 => "Tuesday" | 2 => "Wednesday" | 3 => "Thursday"
  | 4 => "Friday" | 5 => "Saturday" | _ => "Sunday"
  end.

Definition month_name (m : Z) : string :=
  match m with
  | 1 => "January" | 2 => "February" | 3 => "March" | 4 => "April"
  | 5 => "May" | 6 => "June" | 7 => "July" | 8 => "August"
  | 9 => "September" | 10 => "October" | 11 => "November" | _ => "December"
  end.

(** [dt.strftime('%Y%m%d')].  The C library prints [%Y] as the number
    of the year, without leading zeros: four digits from the year 1000
    on, fewer before; [%m] and [%d] are two digits. *)
Definition strftime_Ymd (dt : datetime) : string :=
  PyStr.str_of_Z (year dt) ++ PyStr.zpad 2 (month dt) ++ PyStr.zpad 2 (day dt).

(** [dt.strftime("%A, %B %d, %Y")] *)
Definition strftime_long (dt : datetime) : string :=
  day_name (weekday (to_date dt)) ++ ", " ++ month_name (month dt) ++ " "
  ++ PyStr.zpad 2 (day dt) ++ ", " ++ PyStr.str_of_Z (year dt).

(** [str(dt)] *)
Definition isoformat (dt : datetime) : string :=
  PyStr.zpad 4 (year dt) ++ "-" ++ PyStr.zpad 2 (month dt) ++ "-"
  ++ PyStr.zpad 2 (day dt) ++ " " ++ PyStr.zpad 2 (hour dt) ++ ":"
  ++ PyStr.zpad 2 (minute dt) ++ ":" ++ PyStr.zpad 2 (second dt).

Definition in_range (lo hi : ascii) (c : ascii) : bool :=
  (nat_of_ascii lo <=? nat_of_ascii c)%nat && (nat_of_ascii c <=? nat_of_ascii hi)%nat.

(** The month field of [strptime], [1[0-2]|0[1-9]|[1-9]]: every way it
    can match a prefix, in the order the alternatives are tried, with
    the text that is left. *)
Definition match_month (s : string) : list (Z * string) :=
  match s with
  | String "1" (String c r) =>
      if in_range "0" "2" c then [(10 + PyStr.digit_val c, r)] else []
  | _ => []
  end ++
  match s with
  | String "0" (String c r) =>
      if in_range "1" "9" c then [(PyStr.digit_val c, r)] else []
  | _ => []
  end ++
  match s with
  | String c r => if in_range "1" "9" c then [(PyStr.digit_val c, r)] else []
  | _ => []
  end.

(** The day field, [3[01]|[12]\d|0[1-9]|[1-9]| [1-9]]. *)
Definition match_day (s : string) : list (Z * string) :=
  match s with
  | String "3" (String c r) =>
      if in_range "0" "1" c then [(30 + PyStr.digit_val c, r)] else []
  | _ => []
  end ++
  match s with
  | String t (String c r) =>
      if in_range "1" "2" t && PyStr.is_digit c
      then [(10 * PyStr.digit_val t + PyStr.digit_val c, r)] else []
  | _ => []
  end ++
  match s with
  | String "0" (String c r) =>
      if in_range "1" "9" c then [(PyStr.digit_val c, r)] else []
  | _ => []
  end ++
  match s with
  | String c r => if in_range "1" "9" c then [(PyStr.digit_val c, r)] else []
  | _ => []
  end ++
  match s with
  | String " " (String c r) =>
      if in_range "1" "9" c then [(PyStr.digit_val c, r)] else []
  | _ => []
  end.

(** After the year: the first way, in the order of the alternatives,
    to read month, hyphen and day. *)
Fixpoint first_month_day (months : list (Z * string)) : option (Z * Z * string) :=
  match months with
  | [] => None
  | (m, String "-" r) :: rest =>
      match match_day r with
      | (d, r') :: _ => Some (m, d, r')
      | [] => first_month_day rest
      end
  | _ :: rest => first_month_day rest
  end.

(** [datetime.strptime(s, '%Y-%m-%d')]: four digits, a hyphen, a month,
    a hyphen, a day, and nothing after them; the date must exist.
    [None] stands for [ValueError]. *)
Definition strptime_Ymd (s : string) : option datetime :=
  match s with
  | String y1 (String y2 (String y3 (String y4 (String "-" r)))) =>
      if PyStr.is_digit y1 && PyStr.is_digit y2 && PyStr.is_digit y3 && PyStr.is_digit y4
      then
        match first_month_day (match_month r) with
        | Some (m, d, EmptyString) =>
            datetime_new (1000 * PyStr.digit_val y1 + 100 * PyStr.digit_val y2
                          + 10 * PyStr.digit_val y3 + PyStr.digit_val y4) m d
        | _ => None
        end
      else None
  | _ => None
  end.

End PyDate.

(** ** [parse_event_data] *)
Module Parser.
Import PyDate.

(** What [pd.isna] accepts: [None], a float NaN, [pandas.NaT]. *)
Inductive Absent := PyNone | NaN | NaT.

(** A cell value that is not missing. *)
Inductive Scalar :=
| VStr (s : string)            (* str *)
| VInt (z : Z)                 (* int *)
| VOther (text : string)       (* a float, bool, time ...: known by its str() *)
| VDatetime (d : datetime)     (* datetime.datetime *)
| VTimestamp (d : datetime).   (* pandas.Timestamp, a subclass of datetime *)

Inductive Cell :=
| Missing (k : Absent)
| Value (v : Scalar).

(** The frame [read_excel] returns: the column labels, which it makes
    distinct, and the rows under the default index 0, 1, 2, ... *)
Record DataFrame := mkframe
  { columns : list string; rows : list (list Cell) }.

(** The dict appended to [events]. *)
Record Event := mkevent
  { date : datetime; content : string; unique_id : string }.

#[global] Instance Event_eq_dec : EqDecision Event.
Proof. solve_decision. Defined.

Definition isna (c : Cell) : bool :=
  match c with Missing _ => true | Value _ => false end.

Definition str_of_scalar (v : Scalar) : string :=
  match v with
  | VStr s => s
  | VInt z => PyStr.str_of_Z z
  | VOther text => text
  | VDatetime d | VTimestamp d => isoformat d
  end.

(** [str(c)] *)
Definition str_of_cell (c : Cell) : string :=
  match c with
  | Missing PyNone => "None"
  | Missing NaN => "nan"
  | Missing NaT => "NaT"
  | Value v => str_of_scalar v
  end.

(** [c == text] for a cell and a text *)
Definition cell_is_text (c : Cell) (text : string) : bool :=
  match c with
  | Value (VStr s) => String.eqb s text
  | _ => false
  end.

(** [row.iloc[0] if len(row) > 0 else None] *)
Definition first_cell (row : list Cell) : Cell :=
  match row with
  | c :: _ => c
  | [] => Missing PyNone
  end.

(** [row.iloc[1] if len(row) > 1 else ''] *)
Definition second_cell (row : list Cell) : Cell :=
  match row with
  | _ :: c :: _ => c
  | _ => Value (VStr "")
  end.

Fixpoint position (label : string) (cols : list string) : option nat :=
  match cols with
  | [] => None
  | c :: rest =>
      if String.eqb c label then Some O
      else option_map S (position label rest)
  end.

(** [label in df.columns] *)
Definition has_column (label : string) (cols : list string) : bool :=
  match position label cols with Some _ => true | None => false end.

(** [row[label]]; [None] stands for [KeyError], which a row of the
    frame's width never raises for one of the frame's labels. *)
Definition by_label (cols : list string) (row : list Cell) (label : string)
  : option Cell :=
  match position label cols with
  | Some i => nth_error row i
  | None => None
  end.

(** Lines 64-73: the date cell and the content cell, by name first,
    then by position. *)
Definition select_cells (cols : list string) (row : list Cell)
  : option (Cell * Cell) :=
  if has_column "Date" cols && has_column "content" cols then
    match by_label cols row "Date", by_label cols row "content" with
    | Some d, Some c => Some (d, c)
    | _, _ => None
    end
  else if has_column "Date" cols then
    match by_label cols row "Date" with
    | Some d => Some (d, second_cell row)
    | None => None
    end
  else Some (first_cell row, second_cell row).

(** Line 76: [str(content) if not pd.isna(content) else ''] *)
Definition content_text (c : Cell) : string :=
  if isna c then "" else str_of_cell c.

(** What lines 94-127 leave in [event_date]: a date, [None], or an
    exception on the way. *)
Inductive DateOutcome :=
| Resolved (d : datetime)
| Unresolved
| DateError.

(** Lines 112-119, the text with a slash. *)
Definition slash_date (date_str : string) : DateOutcome :=
  match PyStr.split "/" date_str with
  | [day; month; year] =>
      let year := if (String.length year =? 2)%nat then "20" ++ year else year in
      match PyStr.int year, PyStr.int month, PyStr.int day with
      | Some y, Some m, Some d =>
          match datetime_new y m d with
          | Some dt => Resolved dt
          | None => DateError
          end
      | _, _, _ => DateError
      end
  | _ => Unresolved
  end.

(** Lines 122-127, the text with a hyphen and no [T]; the bare
    [except] swallows every failure. *)
Definition dash_date (date_str : string) : DateOutcome :=
  match PyStr.split_ws date_str with
  | token :: _ =>
      match strptime_Ymd token with
      | Some dt => Resolved dt
      | None => Unresolved
      end
  | [] => Unresolved
  end.

(** Lines 94-127. A [Timestamp] is a [datetime], so the first test
    already takes it. *)
Definition coerce_date (date_value : Scalar) : DateOutcome :=
  match date_value with
  | VDatetime d => Resolved d
  | VTimestamp d => Resolved d
  | _ =>
      let date_str := str_of_scalar date_value in
      if PyStr.contains "/" date_str then slash_date date_str
      else if PyStr.contains "-" date_str && negb (PyStr.contains "T" date_str)
           then dash_date date_str
           else Unresolved
  end.

(** Why a row gives no event without an exception: the four [continue]
    (or fall-through) branches of the loop body. *)
Inductive Skip :=
| HeaderRow          (* line 61 *)
| DateIsNaN          (* line 81 *)
| ContentEmpty       (* line 85 *)
| LooksLikeHeader    (* line 90 *)
| DateNotParsed.     (* line 139 *)

Inductive RowResult :=
| RowAdded (e : Event)
| RowSkipped (why : Skip)
| RowError.          (* the [except] of line 141 *)

Section WithHash.
(** [hash] on text: fixed for the life of the process. *)
Variable hash : string -> Z.

(** Lines 131-135 *)
Definition make_event (event_date : datetime) (content : string) : Event :=
  {| date := event_date;
     content := content;
     unique_id := strftime_Ymd event_date ++ "_" ++ PyStr.str_of_Z (hash content) |}.

(** Lines 75-139, from the two selected cells on. *)
Definition parse_cells (date_value content_cell : Cell) : RowResult :=
  let content := content_text content_cell in
  match date_value with
  | Missing _ => RowSkipped DateIsNaN
  | Value v =>
      if String.eqb content "" || String.eqb content "nan" then RowSkipped ContentEmpty
      else if String.eqb (PyStr.lower content) "content" then RowSkipped LooksLikeHeader
      else match coerce_date v with
           | Resolved d => RowAdded (make_event d content)
           | Unresolved => RowSkipped DateNotParsed
           | DateError => RowError
           end
  end.

(** Lines 57-61 *)
Definition is_header_row (idx : nat) (row : list Cell) : bool :=
  (idx =? 0)%nat &&
  (cell_is_text (first_cell row) "Date"
   || String.eqb (PyStr.lower (str_of_cell (first_cell row))) "date").

(** One turn of the loop of lines 54-145. *)
Definition parse_row (cols : list string) (idx : nat) (row : list Cell)
  : RowResult :=
  if is_header_row idx row then RowSkipped HeaderRow
  else match select_cells cols row with
       | Some (date_value, content_cell) => parse_cells date_value content_cell
       | None => RowError
       end.

Definition events_of (r : RowResult) : list Event :=
  match r with
  | RowAdded e => [e]
  | _ => []
  end.

(** The loop from row [idx] on. *)
Fixpoint parse_rows (cols : list string) (idx : nat) (rs : list (list Cell))
  : list Event :=
  match rs with
  | [] => []
  | row :: rest => events_of (parse_row cols idx row) ++ parse_rows cols (S idx) rest
  end.

Definition parse_event_data (df : DataFrame) : list Event :=
  parse_rows (columns df) 0 (rows df).

End WithHash.

End Parser.

(** ** [format_event_message] *)
Module Formatter.
Import PyDate Parser.

Inductive Colour := Red | Blue.

(** One [add_field] call. *)
Record Field := mkfield
  { name : string; value : string; inline : bool }.

(** [discord.Embed] *)
Record Embed := mkembed
  { title : string;
    description : string;
    color : Colour;
    timestamp : option datetime;
    fields : list Field;
    footer : option string }.

#[global] Instance Field_eq_dec : EqDecision Field.
Proof. solve_decision. Defined.

(** [\d{1,2}:] at the head of the text: two digits are tried first, and
    one digit can only do when the colon comes second. The result is the
    text matched and the text left. *)
Definition take_hour (s : string) : option (string * string) :=
  match s with
  | String a (String b r) =>
      if PyStr.is_digit a then
        if PyStr.is_digit b then
          match r with
          | String ":" r' => Some (String a (String b ":"), r')
          | _ => None
          end
        else if Ascii.eqb b ":" then Some (String a ":", r)
             else None
      else None
  | _ => None
  end.

(** [\d{2}] *)
Definition take_minutes (s : string) : option (string * string) :=
  match s with
  | String a (String b r) =>
      if PyStr.is_digit a && PyStr.is_digit b then Some (String a (String b ""), r)
      else None
  | _ => None
  end.

(** One given character *)
Definition take_char (c : ascii) (s : string) : option (string * string) :=
  match s with
  | String c' r => if Ascii.eqb c' c then Some (String c "", r) else None
  | EmptyString => None
  end.

(** [\s*]: all the spaces there are; what follows in the pattern is no
    space, so giving one back never helps. *)
Fixpoint take_spaces (s : string) : string * string :=
  match s with
  | String c r =>
      if PyStr.is_space c then
        let (sp, rest) := take_spaces r in (String c sp, rest)
      else (EmptyString, s)
  | EmptyString => (EmptyString, EmptyString)
  end.

(** [[AP]M] *)
Definition take_meridiem (s : string) : option (string * string) :=
  match s with
  | String c (String "M" r) =>
      if Ascii.eqb c "A" || Ascii.eqb c "P" then Some (String c "M", r) else None
  | _ => None
  end.

(** The pattern [\d{1,2}:\d{2}-\d{1,2}:\d{2}\s*[AP]M] at the head of the
    text: the text it matches. *)
Definition match_time (s : string) : option string :=
  match take_hour s with
  | Some (h1, s1) =>
    match take_minutes s1 with
    | Some (m1, s2) =>
      match take_char "-" s2 with
      | Some (dash, s3) =>
        match take_hour s3 with
        | Some (h2, s4) =>
          match take_minutes s4 with
          | Some (m2, s5) =>
            let (sp, s6) := take_spaces s5 in
            match take_meridiem s6 with
            | Some (mer, _) => Some (h1 ++ m1 ++ dash ++ h2 ++ m2 ++ sp ++ mer)
            | None => None
            end
          | None => None
          end
        | None => None
        end
      | None => None
      end
    | None => None
    end
  | None => None
  end.

(** [re.search] of that pattern: the leftmost match, [group(1)]. *)
Fixpoint search_time (s : string) : option string :=
  match match_time s with
  | Some m => Some m
  | None =>
      match s with
      | EmptyString => None
      | String _ r => search_time r
      end
  end.

(** Line 157: [lines[0] if lines else "Event Reminder"] *)
Definition title_of (lines : list string) : string :=
  match lines with
  | l :: _ => l
  | [] => "Event Reminder"
  end.

(** Line 194: the test of the loop over [lines[1:]] *)
Definition is_detail (line : string) : bool :=
  negb (String.eqb (PyStr.strip line) "") && negb (PyStr.startswith "-" line).

(** Lines 192-195 *)
Fixpoint collect_details (lines : list string) : list string :=
  match lines with
  | [] => []
  | line :: rest =>
      if is_detail line then PyStr.strip line :: collect_details rest
      else collect_details rest
  end.

Definition nl : string := String PyStr.newline "".

(** The [details] list of lines 192-195. *)
Definition details_of (content : string) : list string :=
  collect_details (tail (PyStr.split PyStr.newline content)).

(** [now] is the clock reading that stamps the embed. *)
Definition format_event_message (now : datetime) (event : Event) : Embed :=
  let content := Parser.content event in
  let lines := PyStr.split PyStr.newline content in
  let title := title_of lines in
  let details := collect_details (tail lines) in
  {| title := "🎉 Event Reminder - Tomorrow!";
     description := "**" ++ title ++ "**";
     color := Red;
     timestamp := Some now;
     fields :=
       [mkfield "📅 Date" (strftime_long (Parser.date event)) false]
       ++ (if PyStr.contains_str "Jakarta, Indonesia" content
           then [mkfield "📍 Location" "Jakarta, Indonesia" true] else [])
       ++ (match search_time content with
           | Some t => [mkfield "⏰ Time" t true]
           | None => []
           end)
       ++ (match details with
           | [] => []
           | _ :: _ => [mkfield "ℹ️ Details" (PyStr.join nl (firstn 5 details)) false]
           end);
     footer := Some "Don't miss this event!" |}.

(** The value of the field of a given name, when the embed has one. *)
Definition field_value (label : string) (e : Embed) : option string :=
  match List.filter (fun f => String.eqb (name f) label) (fields e) with
  | f :: _ => Some (value f)
  | [] => None
  end.

End Formatter.

(** ** [check_events] and the [!excel] command *)
Module Bot.
Import PyDate Parser Formatter.

(** The task object of [check_events], a [discord.ext.tasks.Loop]:
    there is no task (it was never started, or it has ended), or a
    task that has not begun its first iteration, or a task between two
    iterations; a task carries the request of [stop()], which the loop
    reads before its first iteration and after each one. *)
Inductive Task :=
| NoTask
| Launched (stop_requested : bool)
| Looping (stop_requested : bool).

(** [check_events.is_running()]: there is a task and it has not ended. *)
Definition is_running (t : Task) : bool :=
  match t with
  | NoTask => false
  | Launched _ | Looping _ => true
  end.

Definition stop_requested (t : Task) : bool :=
  match t with
  | NoTask => false
  | Launched b | Looping b => b
  end.

(** [check_events.start()], called when there is no task: a new task,
    with no request to stop. *)
Definition start (t : Task) : Task := Launched false.

(** [check_events.stop()]: the running task is asked to end after its
    next iteration; it goes on counting as running until then. *)
Definition stop (t : Task) : Task :=
  match t with
  | NoTask => NoTask
  | Launched _ => Launched true
  | Looping _ => Looping true
  end.

(** One turn of the loop: whether [check_events] runs, and the task
    afterwards. A launched task asked to stop ends before its first
    iteration; a looping task runs one more iteration and then ends
    when it was asked to stop. *)
Definition loop_turn (t : Task) : bool * Task :=
  match t with
  | NoTask => (false, NoTask)
  | Launched true => (false, NoTask)
  | Launched false => (true, Looping false)
  | Looping true => (true, NoTask)
  | Looping false => (true, Looping false)
  end.

(** The globals of the module and the task object, with the state of
    the outside world that takes the messages. *)
Record State (S : Type) := mkstate
  { channel_id : option Z;           (* ANNOUNCEMENT_CHANNEL_ID *)
    announced_events : gset string;  (* announced_events *)
    task : Task;                     (* check_events, the loop *)
    sink : S }.
Arguments mkstate {S}.
Arguments channel_id {S}.
Arguments announced_events {S}.
Arguments task {S}.
Arguments sink {S}.

(** [check_events.is_running()] *)
Definition running {S} (st : State S) : bool := is_running (task st).

(** What [download_google_sheet] and [read_excel] give in one tick. *)
Inductive Fetched :=
| NoDownload                 (* download_google_sheet returned None *)
| BadWorkbook                (* read_excel raised *)
| Loaded (df : DataFrame).

(** What one tick sees of the world: the clock, the channels the bot
    can find, the spreadsheet. *)
Record TickEnv := mkenv
  { now : datetime;
    get_channel : Z -> bool;
    fetched : Fetched }.

(** A message that went out: where, for which event, and the embed. *)
Record Delivery := mkdelivery
  { to : Z; event : Event; message : Embed }.

(** How a tick ended. *)
Inductive TickEnd :=
| NoChannelSet               (* line 212 *)
| ChannelNotFound            (* line 217 *)
| DownloadFailed             (* line 224 *)
| ReadFailed                 (* read_excel raised: line 254 *)
| ClockOverflow              (* today + 1 day does not exist: line 254 *)
| SendFailed (e : Event)     (* channel.send raised for [e]: line 254 *)
| Completed.

Record Tick (S : Type) := mktick
  { after : State S; sent : list Delivery; ended : TickEnd }.
Arguments mktick {S}.
Arguments after {S}.
Arguments sent {S}.
Arguments ended {S}.

Definition set_channel {S} (c : option Z) (st : State S) : State S :=
  mkstate c (announced_events st) (task st) (sink st).

Definition set_task {S} (t : Task) (st : State S) : State S :=
  mkstate (channel_id st) (announced_events st) t (sink st).

Definition set_sink {S} (s : S) (st : State S) : State S :=
  mkstate (channel_id st) (announced_events st) (task st) s.

(** [announced_events.add(event_id)] *)
Definition add_announced {S} (event_id : string) (st : State S) : State S :=
  mkstate (channel_id st) ({[ event_id ]} ∪ announced_events st) (task st) (sink st).

Section WithSink.
Context {S : Type}.
(** [channel.send(embed=...)] on the channel of a given id: the new
    state of the outside world, and [false] when the call raises. *)
Variable send : S -> Z -> Embed -> S * bool.
Variable hash : string -> Z.

(** The loop of lines 238-252 on the channel [cid]. *)
Fixpoint announce (cid : Z) (clock : datetime) (tomorrow : PyDate.date)
         (events : list Event) (st : State S) : Tick S :=
  match events with
  | [] => mktick st [] Completed
  | ev :: rest =>
      if bool_decide (to_date (date ev) = tomorrow) then
        if bool_decide (unique_id ev ∈ announced_events st)
        then announce cid clock tomorrow rest st
        else
          let embed := format_event_message clock ev in
          let (s', ok) := send (sink st) cid embed in
          if ok then
            let t := announce cid clock tomorrow rest
                       (add_announced (unique_id ev) (set_sink s' st)) in
            mktick (after t) (mkdelivery cid ev embed :: sent t) (ended t)
          else mktick (set_sink s' st) [] (SendFailed ev)
      else announce cid clock tomorrow rest st
  end.

(** Lines 233-252: the check proper, once the events are parsed. *)
Definition announce_tomorrow (cid : Z) (clock : datetime)
           (events : list Event) (st : State S) : Tick S :=
  match tomorrow_of clock with
  | Some tomorrow => announce cid clock tomorrow events st
  | None => mktick st [] ClockOverflow
  end.

(** [check_events], lines 209-257 *)
Definition check_events (env : TickEnv) (st : State S) : Tick S :=
  match channel_id st with
  | None => mktick st [] NoChannelSet
  | Some cid =>
      if get_channel env cid then
        match fetched env with
        | NoDownload => mktick st [] DownloadFailed
        | BadWorkbook => mktick st [] ReadFailed
        | Loaded df =>
            announce_tomorrow cid (now env) (parse_event_data hash df) st
        end
      else mktick st [] ChannelNotFound
  end.

(** The second word of [!excel ...] *)
Inductive Action := Start | Stop | Status | Check | Debug | Help.

(** What the command answers with [ctx.send]. *)
Inductive Reply :=
| ChannelSet (c : Z)
| MonitoringStarted
| AlreadyRunning
| MonitoringStopped
| NotRunning
| StatusReport (channel : option Z) (interval : Z) (task_running : bool)
               (announced : nat)
| StartFirst
| Checking
| CheckComplete
| Fetching
| DownloadFailedReply
| NoEventsFound
| DebugReport (found : nat) (shown : list (PyDate.date * Z * bool)) (more : option nat)
| ErrorReply
| CommandList.

(** The invocation context: the channel the command came from, and
    whether a given answer gets through ([false]: [ctx.send] raises). *)
Record Ctx := mkctx
  { ctx_channel : Z; ctx_send : Reply -> bool }.

Inductive CommandEnd := Returned | Raised.

Record Command := mkcommand
  { state_after : State S;
    said : list Reply;
    delivered : list Delivery;
    command_end : CommandEnd }.

(** A last [await ctx.send(r)] *)
Definition reply_and_return (ctx : Ctx) (r : Reply) (st : State S)
           (before : list Reply) (out : list Delivery) : Command :=
  if ctx_send ctx r then mkcommand st (before ++ [r]) out Returned
  else mkcommand st before out Raised.

Variable CHECK_INTERVAL : Z.

(** Lines 334-338: one line of the debug report. *)
Definition debug_line (today tomorrow : PyDate.date) (ev : Event)
  : PyDate.date * Z * bool :=
  let event_date := to_date (date ev) in
  (event_date, (toordinal event_date - toordinal today)%Z,
   bool_decide (event_date = tomorrow)).

(** Lines 316-343: the body of the [try] of the debug action; [None]
    when something in it raises. *)
Definition debug_body (ctx : Ctx) (env : TickEnv) : option (list Reply) :=
  match fetched env with
  | NoDownload => if ctx_send ctx DownloadFailedReply then Some [DownloadFailedReply] else None
  | BadWorkbook => None
  | Loaded df =>
      let events := parse_event_data hash df in
      match tomorrow_of (now env) with
      | None => None
      | Some tomorrow =>
          match events with
          | [] => if ctx_send ctx NoEventsFound then Some [NoEventsFound] else None
          | _ :: _ =>
              let report :=
                DebugReport (length events)
                  (map (debug_line (to_date (now env)) tomorrow) (firstn 5 events))
                  (if (5 <? length events)%nat then Some (length events - 5)%nat else None) in
              if ctx_send ctx report then Some [report] else None
          end
      end
  end.

(** [excel_command], lines 269-357. An exception leaves the command
    where it is raised, with the globals as they are by then. *)
Definition excel_command (ctx : Ctx) (env : TickEnv) (action : Action)
           (st : State S) : Command :=
  match action with
  | Start =>
      let st1 := set_channel (Some (ctx_channel ctx)) st in
      if ctx_send ctx (ChannelSet (ctx_channel ctx)) then
        if running st1
        then reply_and_return ctx AlreadyRunning st1 [ChannelSet (ctx_channel ctx)] []
        else reply_and_return ctx MonitoringStarted (set_task (start (task st1)) st1)
                              [ChannelSet (ctx_channel ctx)] []
      else mkcommand st1 [] [] Raised
  | Stop =>
      if running st
      then reply_and_return ctx MonitoringStopped
                            (set_channel None (set_task (stop (task st)) st)) [] []
      else reply_and_return ctx NotRunning st [] []
  | Status =>
      let shown := match channel_id st with
                   | Some c => if (c =? 0)%Z then None else Some c
                   | None => None
                   end in
      reply_and_return ctx
        (StatusReport shown CHECK_INTERVAL (running st) (size (announced_events st)))
        st [] []
  | Check =>
      match channel_id st with
      | None => reply_and_return ctx StartFirst st [] []
      | Some _ =>
          if ctx_send ctx Checking then
            let t := check_events env st in
            reply_and_return ctx CheckComplete (after t) [Checking] (sent t)
          else mkcommand st [] [] Raised
      end
  | Debug =>
      if ctx_send ctx Fetching then
        match debug_body ctx env with
        | Some replies => mkcommand st (Fetching :: replies) [] Returned
        | None => reply_and_return ctx ErrorReply st [Fetching] []
        end
      else mkcommand st [] [] Raised
  | Help => reply_and_return ctx CommandList st [] []
  end.

(** The bot as a transition system, its handlers taken one at a time,
    each to its end: operators send commands, and the timer gives the
    loop its turn, in which [check_events] runs as [loop_turn] says. *)
Inductive Input :=
| Operator (ctx : Ctx) (env : TickEnv) (action : Action)
| Timer (env : TickEnv).

Definition step (i : Input) (st : State S) : State S :=
  match i with
  | Operator ctx env action => state_after (excel_command ctx env action st)
  | Timer env =>
      let (runs, t) := loop_turn (task st) in
      set_task t (if runs then after (check_events env st) else st)
  end.

Definition initial (s : S) : State S := mkstate None ∅ NoTask s.

(** Every answer of the command gets through. *)
Definition answers_all (i : Input) : Prop :=
  match i with
  | Operator ctx _ _ => forall r, ctx_send ctx r = true
  | Timer _ => True
  end.

(** The states the bot reaches from its start through inputs that all
    satisfy [ok]. *)
Inductive reachable_by (ok : Input -> Prop) : State S -> Prop :=
| reach_initial s : reachable_by ok (initial s)
| reach_step i st : reachable_by ok st -> ok i -> reachable_by ok (step i st).

Definition reachable : State S -> Prop := reachable_by (fun _ => True).

(** The messages of a list that are for a given event id. *)
Definition for_id (event_id : string) (ds : list Delivery) : list Delivery :=
  List.filter (fun d => String.eqb (unique_id (event d)) event_id) ds.

End WithSink.

End Bot.

(** ** The wording of the specification, for comparison with the code *)
Module Wording.
Import PyDate Parser Formatter.

(** "The first line of content": the text before the first line feed. *)
Fixpoint first_line (s : string) : string :=
  match s with
  | EmptyString => EmptyString
  | String c r =>
      if Ascii.eqb c PyStr.newline then EmptyString else String c (first_line r)
  end.

(** "The substring before the first whitespace". *)
Fixpoint before_first_space (s : string) : string :=
  match s with
  | EmptyString => EmptyString
  | String c r =>
      if PyStr.is_space c then EmptyString else String c (before_first_space r)
  end.

(** "Take the substring before the first whitespace, parse strictly as
    YYYY-MM-DD; on failure leave unresolved." *)
Definition dash_date_as_worded (s : string) : DateOutcome :=
  match strptime_Ymd (before_first_space s) with
  | Some d => Resolved d
  | None => Unresolved
  end.

(** A blank line: nothing but spaces. *)
Fixpoint blank (s : string) : bool :=
  match s with
  | EmptyString => true
  | String c r => PyStr.is_space c && blank r
  end.

(** "All non-first lines that are non-blank and do not start with [-],
    in original order." *)
Definition detail_lines (content : string) : list string :=
  List.filter (fun line => negb (blank line) && negb (PyStr.startswith "-" line))
              (tail (PyStr.split PyStr.newline content)).

(** "... truncated to the first 5." *)
Definition details_as_worded (content : string) : list string :=
  firstn 5 (detail_lines content).

(** "The date formatted YYYYMMDD": four digits of the year, two of
    the month, two of the day. *)
Definition yyyymmdd (dt : datetime) : string :=
  PyStr.zpad 4 (year dt) ++ PyStr.zpad 2 (month dt) ++ PyStr.zpad 2 (day dt).

(** "id equal to the date formatted YYYYMMDD, an underscore, and the
    hash of the content". *)
Definition id_as_worded (hash : string -> Z) (dt : datetime) (content : string) : string :=
  yyyymmdd dt ++ "_" ++ PyStr.str_of_Z (hash content).

(** A content the parser keeps: not empty, not ["nan"], not the header
    word (lines 83 and 88). *)
Definition content_kept (content : string) : bool :=
  negb (String.eqb content "") && negb (String.eqb content "nan")
  && negb (String.eqb (PyStr.lower content) "content").

End Wording.

(** ** Sample inputs for the examples *)
Module Samples.
Import PyDate Parser Formatter Bot.

(** A stand-in for the hash of the process in the examples. *)
Definition length_hash (s : string) : Z := Z.of_nat (String.length s).

Definition march_frame : DataFrame :=
  mkframe ["Date"; "content"]
    [ [Value (VStr "05/03/24"); Value (VStr "Launch Party")];
      [Value (VStr "2024-03-05 10:00:00"); Value (VStr "nan")];
      [Missing NaN; Value (VStr "Workshop")] ].

(** The content of the example of the specification. *)
Definition launch_party : string :=
  "Launch Party" ++ nl ++ "9:00-11:00 AM" ++ nl ++ "Jakarta, Indonesia" ++ nl
  ++ "- ignore this" ++ nl ++ "More info".

(** A content with an indented line. *)
Definition team_sync : string := "Team sync" ++ nl ++ "  Room 2".

(** A world that takes every message. *)
Definition accepting (w : unit) (cid : Z) (m : Embed) : unit * bool := (tt, true).

(** A world that counts the sends and refuses the first. *)
Definition refusing_first (n : nat) (cid : Z) (m : Embed) : nat * bool :=
  (Datatypes.S n, negb (n =? 0)%nat).

Definition launch : Event :=
  make_event length_hash (mkdatetime 2024 3 5 0 0 0) "Launch Party".

Definition monday_morning : datetime := mkdatetime 2024 3 4 9 0 0.

Definition on_channel {S} (cid : Z) (s : S) : State S :=
  mkstate (Some cid) ∅ (Looping false) s.

(** The channel of the operator, where an answer does not get through. *)
Definition muted (cid : Z) : Ctx := mkctx cid (fun _ => false).
Definition heard (cid : Z) : Ctx := mkctx cid (fun _ => true).

Definition quiet_env : TickEnv := mkenv monday_morning (fun _ => true) NoDownload.

(** The state after [!excel start] in a channel where the first answer
    raises: the channel is set (line 275), the task is not started. *)
Definition half_started : State unit :=
  step accepting length_hash 30
       (Operator (muted 7) quiet_env Start) (initial tt).

(** The state after start, a turn of the loop, stop, a second start,
    and the next turn of the loop, every answer getting through. *)
Definition late_start : State unit :=
  step accepting length_hash 30 (Timer quiet_env)
    (step accepting length_hash 30 (Operator (heard 7) quiet_env Start)
       (step accepting length_hash 30 (Operator (heard 7) quiet_env Stop)
          (step accepting length_hash 30 (Timer quiet_env)
             (step accepting length_hash 30 (Operator (heard 7) quiet_env Start)
                (initial tt))))).

End Samples.

(** ** [download_google_sheet] and the fetch of a tick *)
Module Sheet.
Import Parser Bot.

(** The class [[a-zA-Z0-9-_]]: after the range [0-9] the hyphen stands
    for itself. *)
Definition is_id_char (c : ascii) : bool :=
  let n := nat_of_ascii c in
  ((97 <=? n)%nat && (n <=? 122)%nat) || ((65 <=? n)%nat && (n <=? 90)%nat)
  || ((48 <=? n)%nat && (n <=? 57)%nat) || Ascii.eqb c "-" || Ascii.eqb c "_".

(** The longest run of such characters at the head of the text, and
    the text left. *)
Fixpoint take_id (s : string) : string * string :=
  match s with
  | String c r =>
      if is_id_char c then
        let (id, rest) := take_id r in (String c id, rest)
      else (EmptyString, s)
  | EmptyString => (EmptyString, EmptyString)
  end.

(** The pattern [/d/([a-zA-Z0-9-_]+)] at the head of the text: the
    group. *)
Definition match_sheet_id (s : string) : option string :=
  match s with
  | String "/" (String "d" (String "/" r)) =>
      match take_id r with
      | (EmptyString, _) => None
      | (id, _) => Some id
      end
  | _ => None
  end.

(** [re.search] of that pattern: the leftmost match, [group(1)]. *)
Fixpoint search_sheet_id (s : string) : option string :=
  match match_sheet_id s with
  | Some id => Some id
  | None =>
      match s with
      | EmptyString => None
      | String _ r => search_sheet_id r
      end
  end.

Definition export_prefix : string := "https://docs.google.com/spreadsheets/d/".
Definition export_suffix : string := "/export?format=xlsx".

(** Lines 33-36: the address that is requested, when there is one. *)
Definition export_url (url : string) : option string :=
  if PyStr.contains_str "docs.google.com/spreadsheets" url then
    match search_sheet_id url with
    | Some sheet_id => Some (export_prefix ++ sheet_id ++ export_suffix)
    | None => None
    end
  else None.

(** What [requests.get] gives: an exception on the way, or a response
    with its status and its body. *)
Inductive HttpResult :=
| RequestFailed
| Response (status : Z) (body : string).

(** [response.raise_for_status()] raises for the statuses 400 to 599. *)
Definition is_error_status (status : Z) : bool :=
  (400 <=? status)%Z && (status <? 600)%Z.

(** [download_google_sheet], lines 29-43. The address is [None] when
    the variable of the environment is not set, and then line 33
    raises; every exception gives [None]. *)
Definition download_google_sheet (get : string -> HttpResult) (url : option string)
  : option string :=
  match url with
  | None => None
  | Some u =>
      match export_url u with
      | None => None
      | Some address =>
          match get address with
          | RequestFailed => None
          | Response status body =>
              if is_error_status status then None else Some body
          end
      end
  end.

(** Lines 221-227: the download and [read_excel], which is [None] when
    it raises. The stream of a download is true whatever it holds. *)
Definition fetch (get : string -> HttpResult) (read_excel : string -> option DataFrame)
           (url : option string) : Fetched :=
  match download_google_sheet get url with
  | None => NoDownload
  | Some body =>
      match read_excel body with
      | Some df => Loaded df
      | None => BadWorkbook
      end
  end.

End Sheet.

(** ** Runs of the bot *)
Module Run.
Import Parser Formatter Bot.

Section WithSink.
Context {S : Type}.
Variable send : S -> Z -> Embed -> S * bool.
Variable hash : string -> Z.
Variable CHECK_INTERVAL : Z.

(** What goes out to the channel on one input. *)
Definition outputs (i : Input) (st : State S) : list Delivery :=
  match i with
  | Operator ctx env action =>
      delivered (excel_command send hash CHECK_INTERVAL ctx env action st)
  | Timer env =>
      if fst (loop_turn (task st)) then sent (check_events send hash env st) else []
  end.

(** The state after a list of inputs, each handled to its end before
    the next, and all that went out. *)
Fixpoint run (inputs : list Input) (st : State S) : State S * list Delivery :=
  match inputs with
  | [] => (st, [])
  | i :: rest =>
      let (st', out) := run rest (step send hash CHECK_INTERVAL i st) in
      (st', (outputs i st ++ out)%list)
  end.

End WithSink.

(** The ids of the events of a list of messages. *)
Definition ids_of (ds : list Delivery) : list string :=
  map (fun d => unique_id (event d)) ds.

End Run.

(** ** Checks that overlap

    [check_events] gives way at [await channel.send] (line 248),
    between the test of line 246 and the [add] of line 249; another
    check, of the timer or of [!excel check], can run meanwhile. *)
Module Overlap.
Import PyDate Parser Formatter Bot.

(** A check that waits for its [channel.send] to return: the channel
    it found, its clock and its tomorrow, the event whose message is
    on its way, and the events it has still to look at. *)
Record Waiting := mkwaiting
  { w_channel : Z;
    w_clock : datetime;
    w_tomorrow : PyDate.date;
    w_event : Event;
    w_rest : list Event }.

(** Lines 238-246: the loop up to the first event of tomorrow whose id
    the set does not hold, with the events after it. *)
Fixpoint next_new (tomorrow : PyDate.date) (events : list Event)
         (known : gset string) : option (Event * list Event) :=
  match events with
  | [] => None
  | ev :: rest =>
      if bool_decide (to_date (date ev) = tomorrow) then
        if bool_decide (unique_id ev ∈ known)
        then next_new tomorrow rest known
        else Some (ev, rest)
      else next_new tomorrow rest known
  end.

Section WithSink.
Context {S : Type}.
Variable send : S -> Z -> Embed -> S * bool.
Variable hash : string -> Z.

(** What a check has done when it gives way or ends. *)
Record Resumed := mkresumed
  { r_state : State S;
    r_sent : list Delivery;
    r_waiting : option Waiting }.

(** The loop runs on to its next send: [None] when it comes to its
    end without one. *)
Definition wait_for (cid : Z) (clock : datetime) (tomorrow : PyDate.date)
           (events : list Event) (st : State S) : option Waiting :=
  match next_new tomorrow events (announced_events st) with
  | Some (ev, rest) => Some (mkwaiting cid clock tomorrow ev rest)
  | None => None
  end.

(** [check_events] from its first line to its first [await]: [None]
    when the check ends without sending. Nothing of the state is
    changed up to there. *)
Definition begin_check (env : TickEnv) (st : State S) : option Waiting :=
  match channel_id st with
  | None => None
  | Some cid =>
      if get_channel env cid then
        match fetched env with
        | Loaded df =>
            match tomorrow_of (now env) with
            | Some tomorrow =>
                wait_for cid (now env) tomorrow (parse_event_data hash df) st
            | None => None
            end
        | _ => None
        end
      else None
  end.

(** The send returns: the id is added (line 249) and the loop runs on
    to its next send; or the send raises and the check ends (line
    254). The state is the one of that moment. *)
Definition resume (w : Waiting) (st : State S) : Resumed :=
  let embed := format_event_message (w_clock w) (w_event w) in
  let (s', ok) := send (sink st) (w_channel w) embed in
  if ok then
    let st1 := add_announced (unique_id (w_event w)) (set_sink s' st) in
    mkresumed st1 [mkdelivery (w_channel w) (w_event w) embed]
              (wait_for (w_channel w) (w_clock w) (w_tomorrow w) (w_rest w) st1)
  else mkresumed (set_sink s' st) [] None.

(** A check that is resumed until it ends, nothing else running
    between its sends. *)
Fixpoint finish (fuel : nat) (w : option Waiting) (st : State S)
  : State S * list Delivery :=
  match w, fuel with
  | Some w, Datatypes.S n =>
      let r := resume w st in
      let (st2, out) := finish n (r_waiting r) (r_state r) in
      (st2, (r_sent r ++ out)%list)
  | _, _ => (st, [])
  end.

End WithSink.

End Overlap.

(** ** Notions used to state the properties *)
Module Notions.
Import PyDate.

(** Every character of the text passes the test. *)
Fixpoint all_chars (p : ascii -> bool) (s : string) : bool :=
  match s with
  | EmptyString => true
  | String c r => p c && all_chars p r
  end.

(** The character of a digit from 0 to 9. *)
Definition digit_char (n : Z) : ascii := ascii_of_nat (48 + Z.to_nat n).

(** A number below 10000 on four digits, and one below 100 on two. *)
Definition four_digits (y : Z) : string :=
  (String (digit_char (y / 1000)) (String (digit_char (y / 100 mod 10))
    (String (digit_char (y / 10 mod 10)) (String (digit_char (y mod 10)) EmptyString))))%Z.

Definition two_digits (m : Z) : string :=
  (String (digit_char (m / 10)) (String (digit_char (m mod 10)) EmptyString))%Z.

(** A number below 10000 on as many digits as it needs. *)
Definition plain_digits (y : Z) : string :=
  (if y <? 10 then String (digit_char y) EmptyString
   else if y <? 100 then two_digits y
   else if y <? 1000 then
     String (digit_char (y / 100)) (String (digit_char (y / 10 mod 10))
       (String (digit_char (y mod 10)) EmptyString))
   else four_digits y)%Z.

(** The test holds for [fuel] numbers in a row, from [z] on. *)
Fixpoint all_from (fuel : nat) (z : Z) (p : Z -> bool) : bool :=
  match fuel with
  | O => true
  | S k => p z && all_from k (z + 1)%Z p
  end.

(** The 29th of February, counted in the days of a year. *)
Definition leap_day (y : Z) : Z := if is_leap y then 1%Z else 0%Z.

End Notions.

(** ** More sample inputs *)
Module Cases.
Import PyDate Parser Formatter Bot Sheet Samples.

(** A sharing link, as the browser shows it. *)
Definition sheet_id : string := "1AbC-d_9x".
Definition sharing_link : string := export_prefix ++ sheet_id ++ "/edit#gid=0".

(** A server that answers every request with the same workbook. *)
Definition serving (body : string) (address : string) : HttpResult := Response 200 body.

(** The spreadsheet of the samples, loaded on the Monday morning. *)
Definition launch_env : TickEnv := mkenv monday_morning (fun _ => true) (Loaded march_frame).

Definition launch_delivery : Delivery :=
  mkdelivery 7 launch (format_event_message monday_morning launch).

(** A row given by its labelled cells, the named columns last. *)
Definition labelled_row : list (string * Cell) :=
  [ ("Room", Value (VStr "B2"));
    ("content", Value (VStr "Launch Party"));
    ("Date", Value (VStr "05/03/24")) ].

(** A frame that still holds its header line as first row. *)
Definition headed_rows : list (list Cell) :=
  [ [Value (VStr "DATE"); Value (VStr "Content")];
    [Value (VStr "05/03/24"); Value (VStr "Launch Party")] ].

Definition plain_event : Event :=
  mkevent (mkdatetime 2024 3 5 0 0 0)
          ("Launch Party" ++ nl ++ "Doors open at nine" ++ nl ++ "Bring a friend")
          "20240305_1".

Definition launch_event : Event :=
  mkevent (mkdatetime 2024 3 5 0 0 0) launch_party "20240305_1".

(** A check of the Monday morning that waits for the send of the
    launch party, the last event of its list. *)
Definition launch_wait : Overlap.Waiting :=
  Overlap.mkwaiting 7 monday_morning (mkdate 2024 3 5) launch [].

End Cases.

(** * Properties *)

(** ** Text *)
Module PyStrFacts.
Import PyStr.

Example split_keeps_empty_parts : split "/" "a//b/" = ["a"; ""; "b"; ""].
Proof. reflexivity. Qed.

Example split_ws_drops_spaces :
  split_ws "  2024-03-05   10:00 " = ["2024-03-05"; "10:00"].
Proof. reflexivity. Qed.

Example int_accepts :
  int " +1_000 " = Some 1000%Z /\ int "-05" = Some (-5)%Z /\ int "0024" = Some 24%Z.
Proof. repeat split. Qed.

Example int_refuses :
  int "" = None /\ int "20 7" = None /\ int "1__0" = None /\ int "5_" = None
  /\ int "- 5" = None /\ int "2x" = None.
Proof. repeat split. Qed.

(** A separator 0x1f after the digits is stripped by [strip] and
    refused by [int]. *)
Example int_refuses_a_separator :
  strip (String "7" (String (ascii_of_nat 31) EmptyString)) = "7"
  /\ int (String "7" (String (ascii_of_nat 31) EmptyString)) = None
  /\ int (String "7" (String (ascii_of_nat 9) EmptyString)) = Some 7%Z.
Proof. repeat split. Qed.

Lemma append_cons c a b : String c a ++ b = String c (a ++ b).
Proof. reflexivity. Qed.

Lemma append_nil b : EmptyString ++ b = b.
Proof. reflexivity. Qed.

Lemma digit_not_space c : is_digit c = true -> is_space c = false.
Proof.
  unfold is_digit, is_space. intros H.
  apply andb_true_iff in H as [H1 H2].
  apply Nat.leb_le in H1. apply Nat.leb_le in H2.
  apply orb_false_iff. split; apply andb_false_iff.
  - right. apply Nat.leb_gt. lia.
  - right. apply Nat.leb_gt. lia.
Qed.

Lemma split_not_nil sep s : split sep s <> [].
Proof.
  destruct s as [|c r]; simpl; [discriminate|].
  destruct (Ascii.eqb c sep); [discriminate|].
  destruct (split sep r); discriminate.
Qed.

Lemma split_head_first_line s :
  hd EmptyString (split newline s) = Wording.first_line s.
Proof.
  induction s as [|c r IH]; simpl; [reflexivity|].
  destruct (Ascii.eqb c newline); [reflexivity|].
  destruct (split newline r) eqn:E; simpl in *.
  - exfalso. exact (split_not_nil _ _ E).
  - now rewrite IH.
Qed.

Lemma lstrip_no_space c r : is_space c = false -> lstrip (String c r) = String c r.
Proof. intros H. simpl. now rewrite H. Qed.

(** The first token of [s.split()] is the text before the first space
    of [s.lstrip()], and there is no token when that is empty. *)
Lemma split_ws_head s :
  match split_ws s with
  | [] => lstrip s = EmptyString
  | token :: _ => token = Wording.before_first_space (lstrip s)
                  /\ lstrip s <> EmptyString
  end.
Proof.
  induction s as [|c r IH]; [reflexivity|].
  cbn [split_ws lstrip].
  destruct (is_space c) eqn:Hc; [exact IH|].
  cbn [Wording.before_first_space]. rewrite Hc.
  destruct r as [|c' r']; [split; [reflexivity|discriminate]|].
  destruct (is_space c') eqn:Hc'.
  - cbn [Wording.before_first_space]. rewrite Hc'. split; [reflexivity|discriminate].
  - rewrite (lstrip_no_space c' r' Hc') in IH.
    destruct (split_ws (String c' r')) as [|w ws].
    + discriminate IH.
    + destruct IH as [-> _]. split; [reflexivity|discriminate].
Qed.

Lemma rstrip_empty_blank s : rstrip s = EmptyString <-> Wording.blank s = true.
Proof.
  induction s as [|c r IH]; simpl; [tauto|].
  destruct (rstrip r) eqn:E.
  - destruct (is_space c); simpl.
    + rewrite <- IH. tauto.
    + split; discriminate.
  - split; [discriminate|]. intros H. apply andb_true_iff in H as [_ H].
    apply IH in H. discriminate.
Qed.

Lemma blank_lstrip s : Wording.blank (lstrip s) = Wording.blank s.
Proof.
  induction s as [|c r IH]; [reflexivity|].
  cbn [lstrip]. destruct (is_space c) eqn:Hc.
  - rewrite IH. simpl. now rewrite Hc.
  - reflexivity.
Qed.

(** [line.strip()] is empty exactly for a blank line. *)
Lemma strip_empty_blank s : String.eqb (strip s) EmptyString = Wording.blank s.
Proof.
  unfold strip. rewrite <- blank_lstrip.
  destruct (Wording.blank (lstrip s)) eqn:B.
  - apply rstrip_empty_blank in B. now rewrite B.
  - destruct (rstrip (lstrip s)) eqn:E; [|reflexivity].
    apply rstrip_empty_blank in E. congruence.
Qed.

Lemma digit_not_int_space c : is_digit c = true -> is_int_space c = false.
Proof.
  unfold is_digit, is_int_space. intros H.
  apply andb_true_iff in H as [H1 H2].
  apply Nat.leb_le in H1. apply Nat.leb_le in H2.
  apply orb_false_iff. split.
  - apply andb_false_iff. right. apply Nat.leb_gt. lia.
  - apply Nat.eqb_neq. lia.
Qed.

(** [int] of two digits after ["20"]. *)
Lemma int_two_digit_year a b :
  is_digit a = true -> is_digit b = true ->
  int ("20" ++ String a (String b EmptyString))
  = Some (2000 + 10 * digit_val a + digit_val b)%Z.
Proof.
  intros Ha Hb. unfold int.
  change ("20" ++ String a (String b EmptyString))
    with (String "2" (String "0" (String a (String b EmptyString)))).
  assert (L : int_lstrip (String "2" (String "0" (String a (String b EmptyString))))
              = String "2" (String "0" (String a (String b EmptyString))))
    by reflexivity.
  rewrite L.
  assert (R : int_rstrip (String "2" (String "0" (String a (String b EmptyString))))
              = String "2" (String "0" (String a (String b EmptyString)))).
  { cbn [int_rstrip]. rewrite (digit_not_int_space b Hb). reflexivity. }
  rewrite R. unfold int_literal. cbn [count_digits int_digits].
  change (is_digit "2") with true. change (is_digit "0") with true.
  cbn iota. rewrite Ha, Hb. cbn iota.
  change (MAX_STR_DIGITS <? 1 + (1 + (1 + (1 + 0))))%Z with false. cbn iota.
  f_equal.
  change (digit_val "2") with 2%Z. change (digit_val "0") with 0%Z. lia.
Qed.

End PyStrFacts.

(** ** Dates *)
Module PyDateFacts.
Import PyDate.
Local Open Scope Z_scope.

Example strptime_reads :
  strptime_Ymd "2024-03-05" = Some (mkdatetime 2024 3 5 0 0 0)
  /\ strptime_Ymd "2024-3-5" = Some (mkdatetime 2024 3 5 0 0 0)
  /\ strptime_Ymd "2024-02-29" = Some (mkdatetime 2024 2 29 0 0 0).
Proof. repeat split. Qed.

Example strptime_refuses :
  strptime_Ymd "2024-03-05x" = None /\ strptime_Ymd "24-03-05" = None
  /\ strptime_Ymd "2023-02-29" = None /\ strptime_Ymd "2024-13-01" = None
  /\ strptime_Ymd "2024-03-311" = None /\ strptime_Ymd "" = None.
Proof. repeat split. Qed.

Example a_tuesday :
  toordinal (mkdate 2024 3 5) = 738950
  /\ strftime_long (mkdatetime 2024 3 5 10 0 0) = "Tuesday, March 05, 2024".
Proof. split; reflexivity. Qed.

Example tomorrow_turns_the_month :
  tomorrow_of (mkdatetime 2024 2 29 23 59 59) = Some (mkdate 2024 3 1)
  /\ tomorrow_of (mkdatetime 2023 12 31 8 0 0) = Some (mkdate 2024 1 1)
  /\ tomorrow_of (mkdatetime 9999 12 31 8 0 0) = None.
Proof. repeat split. Qed.

Lemma days_before_next_year y :
  days_before_year (y + 1) = days_before_year y + (if is_leap y then 366 else 365).
Proof.
  unfold days_before_year, is_leap.
  replace (y + 1 - 1) with y by lia.
  destruct (y mod 4 =? 0) eqn:E4; destruct (y mod 100 =? 0) eqn:E100;
    destruct (y mod 400 =? 0) eqn:E400; cbn [andb orb negb];
    rewrite ?Z.eqb_eq, ?Z.eqb_neq in *; 
    Z.to_euclidean_division_equations; lia.
Qed.

Lemma days_in_month_bounds y m : 28 <= days_in_month y m <= 31.
Proof.
  unfold days_in_month.
  destruct m as [|p|p]; try lia;
    repeat (destruct p as [p|p|]; try lia); destruct (is_leap y); lia.
Qed.

Lemma days_before_next_month y m :
  1 <= m -> days_before_month y (m + 1) = days_before_month y m + days_in_month y m.
Proof.
  intros Hm. unfold days_before_month.
  replace (m + 1 - 1) with (Z.succ (m - 1)) by lia.
  rewrite Z2Nat.inj_succ by lia. cbn [days_before_month_from].
  rewrite <- Z2Nat.inj_succ by lia. rewrite Z2Nat.id by lia.
  now replace (Z.succ (m - 1)) with m by lia.
Qed.

Lemma days_before_january y : days_before_month y 1 = 0.
Proof. reflexivity. Qed.

Lemma days_in_year y :
  days_before_month y 12 + days_in_month y 12 = if is_leap y then 366 else 365.
Proof.
  change 12 with (11 + 1) at 1. rewrite days_before_next_month by lia.
  change 11 with (10 + 1) at 1. rewrite days_before_next_month by lia.
  change 10 with (9 + 1) at 1. rewrite days_before_next_month by lia.
  change 9 with (8 + 1) at 1. rewrite days_before_next_month by lia.
  change 8 with (7 + 1) at 1. rewrite days_before_next_month by lia.
  change 7 with (6 + 1) at 1. rewrite days_before_next_month by lia.
  change 6 with (5 + 1) at 1. rewrite days_before_next_month by lia.
  change 5 with (4 + 1) at 1. rewrite days_before_next_month by lia.
  change 4 with (3 + 1) at 1. rewrite days_before_next_month by lia.
  change 3 with (2 + 1) at 1. rewrite days_before_next_month by lia.
  change 2 with (1 + 1) at 1. rewrite days_before_next_month by lia.
  rewrite days_before_january. cbn [days_in_month].
  destruct (is_leap y); reflexivity.
Qed.

(** The day after a date of the calendar is the date of the next
    ordinal, as [date + timedelta(days=1)] computes it. *)
Lemma next_day_ordinal d d' :
  valid_date (dyear d) (dmonth d) (dday d) = true ->
  next_day d = Some d' ->
  toordinal d' = toordinal d + 1
  /\ valid_date (dyear d') (dmonth d') (dday d') = true.
Proof.
  destruct d as [y m dd]. unfold valid_date, next_day, toordinal, MINYEAR, MAXYEAR.
  cbn [dyear dmonth dday].
  intros V. repeat (apply andb_true_iff in V as [V ?]).
  rewrite ?Z.leb_le in *.
  destruct (dd <? days_in_month y m) eqn:L1.
  - intros [= <-]. cbn [dyear dmonth dday].
    split; [lia|]. apply Z.ltb_lt in L1.
    repeat (apply andb_true_iff; split); apply Z.leb_le; lia.
  - apply Z.ltb_ge in L1.
    destruct (m <? 12) eqn:L2.
    + intros [= <-]. cbn [dyear dmonth dday].
      apply Z.ltb_lt in L2.
      split.
      * rewrite days_before_next_month by lia. lia.
      * pose proof (days_in_month_bounds y (m + 1)).
        repeat (apply andb_true_iff; split); apply Z.leb_le; lia.
    + apply Z.ltb_ge in L2. assert (m = 12) by lia. subst m.
      destruct (y <? 9999) eqn:L3; [|discriminate].
      apply Z.ltb_lt in L3.
      intros [= <-]. cbn [dyear dmonth dday].
      split.
      * rewrite days_before_next_year, days_before_january.
        pose proof (days_in_year y). destruct (is_leap y); lia.
      * repeat (apply andb_true_iff; split); apply Z.leb_le; cbn; lia.
Qed.

(** Only the last day of year 9999 has no day after it. *)
Lemma next_day_last d :
  valid_date (dyear d) (dmonth d) (dday d) = true ->
  next_day d = None <-> d = mkdate 9999 12 31.
Proof.
  destruct d as [y m dd]. unfold valid_date, next_day, MINYEAR, MAXYEAR.
  cbn [dyear dmonth dday].
  intros V. repeat (apply andb_true_iff in V as [V ?]).
  rewrite ?Z.leb_le in *.
  split.
  - destruct (dd <? days_in_month y m) eqn:L1; [discriminate|].
    destruct (m <? 12) eqn:L2; [discriminate|].
    destruct (y <? 9999) eqn:L3; [discriminate|]. intros _.
    apply Z.ltb_ge in L1, L2, L3.
    assert (m = 12) by lia. subst m. cbn in *. f_equal; lia.
  - intros [= -> -> ->]. reflexivity.
Qed.

End PyDateFacts.

(** ** The stamp of an id *)
Module StampFacts.
Import PyStr PyDate Wording Notions PyStrFacts.
Local Open Scope Z_scope.

Lemma all_from_spec fuel z p k :
  all_from fuel z p = true -> z <= k < z + Z.of_nat fuel -> p k = true.
Proof.
  revert z. induction fuel as [|n IH]; intros z H Hk; [lia|].
  cbn [all_from] in H. apply andb_true_iff in H as [Hz H].
  destruct (Z.eq_dec k z) as [->|Hne]; [exact Hz|].
  apply (IH (z + 1)); [exact H|lia].
Qed.

Lemma zpad4_checked :
  all_from (100 * 100) 0 (fun y => String.eqb (zpad 4 y) (four_digits y)) = true.
Proof. vm_compute. reflexivity. Qed.

Lemma zpad2_checked :
  all_from 100 0 (fun m => String.eqb (zpad 2 m) (two_digits m)) = true.
Proof. vm_compute. reflexivity. Qed.

Lemma str_checked :
  all_from (100 * 100) 0 (fun y => String.eqb (str_of_Z y) (plain_digits y)) = true.
Proof. vm_compute. reflexivity. Qed.

Lemma zpad4_digits y : 0 <= y <= 9999 -> zpad 4 y = four_digits y.
Proof.
  intros Hy. apply String.eqb_eq.
  apply (all_from_spec _ _ (fun y => String.eqb (zpad 4 y) (four_digits y)) y zpad4_checked).
  lia.
Qed.

Lemma zpad2_digits m : 0 <= m <= 99 -> zpad 2 m = two_digits m.
Proof.
  intros Hm. apply String.eqb_eq.
  apply (all_from_spec _ _ (fun m => String.eqb (zpad 2 m) (two_digits m)) m zpad2_checked).
  lia.
Qed.

(** [str] of a year: its digits, without padding. *)
Lemma str_digits y : 0 <= y <= 9999 -> str_of_Z y = plain_digits y.
Proof.
  intros Hy. apply String.eqb_eq.
  apply (all_from_spec _ _ (fun y => String.eqb (str_of_Z y) (plain_digits y)) y str_checked).
  lia.
Qed.

Lemma digit_char_inj a b :
  0 <= a <= 9 -> 0 <= b <= 9 -> digit_char a = digit_char b -> a = b.
Proof.
  intros Ha Hb H. apply (f_equal nat_of_ascii) in H. unfold digit_char in H.
  rewrite !nat_ascii_embedding in H by lia. lia.
Qed.

Lemma digit_char_not_underscore a : 0 <= a <= 9 -> digit_char a <> "_"%char.
Proof.
  intros Ha H. apply (f_equal nat_of_ascii) in H. unfold digit_char in H.
  rewrite nat_ascii_embedding in H by lia.
  change (nat_of_ascii "_") with 95%nat in H. lia.
Qed.

Lemma valid_date_bounds y m d :
  valid_date y m d = true -> 1 <= y <= 9999 /\ 1 <= m <= 12 /\ 1 <= d <= 31.
Proof.
  unfold valid_date, MINYEAR, MAXYEAR. intros V.
  repeat (apply andb_true_iff in V as [V ?]). rewrite ?Z.leb_le in *.
  pose proof (PyDateFacts.days_in_month_bounds y m). lia.
Qed.

Lemma strftime_Ymd_digits dt :
  valid_date (year dt) (month dt) (day dt) = true ->
  strftime_Ymd dt = plain_digits (year dt) ++ two_digits (month dt) ++ two_digits (day dt).
Proof.
  intros V. apply valid_date_bounds in V as (Hy & Hm & Hd).
  unfold strftime_Ymd. now rewrite str_digits, !zpad2_digits by lia.
Qed.

Lemma yyyymmdd_digits dt :
  valid_date (year dt) (month dt) (day dt) = true ->
  yyyymmdd dt = four_digits (year dt) ++ two_digits (month dt) ++ two_digits (day dt).
Proof.
  intros V. apply valid_date_bounds in V as (Hy & Hm & Hd).
  unfold yyyymmdd. now rewrite zpad4_digits, !zpad2_digits by lia.
Qed.

Lemma str_of_Z_inj a b : str_of_Z a = str_of_Z b -> a = b.
Proof.
  unfold str_of_Z. intros H. apply (f_equal NilZero.int_of_string) in H.
  assert (N : forall z, Z.to_int z <> Decimal.Pos Decimal.Nil
                        /\ Z.to_int z <> Decimal.Neg Decimal.Nil).
  { intros [|p|p]; simpl; split; try discriminate;
      intros [= E]; now apply (DecimalPos.Unsigned.to_uint_nonnil p). }
  rewrite !NilZero.isi in H by apply N.
  injection H as H. now apply DecimalZ.to_int_inj.
Qed.

Lemma string_cons_inj a s b t : String a s = String b t -> a = b /\ s = t.
Proof. now intros [= -> ->]. Qed.

(** Take two texts apart, character by character, as far as both have
    a first character. *)
Ltac peel E :=
  repeat match type of E with
         | String _ _ = String _ _ =>
             let C := fresh "C" in apply string_cons_inj in E as [C E]
         end.

(** A digit cannot stand where the other text has its underscore. *)
Ltac stamp_clash :=
  exfalso;
  match goal with
  | H : digit_char ?a = "_"%char |- _ =>
      apply (digit_char_not_underscore a); [|exact H]
  | H : "_"%char = digit_char ?a |- _ =>
      apply (digit_char_not_underscore a); [|symmetry; exact H]
  end;
  Z.to_euclidean_division_equations; lia.

Ltac plain_cases y :=
  unfold plain_digits;
  destruct (Z.ltb_spec y 10); [|destruct (Z.ltb_spec y 100); [|destruct (Z.ltb_spec y 1000)]].

(** From the year 1000 on the stamp is the date as YYYYMMDD, and only
    then. *)
Lemma stamp_worded dt x :
  valid_date (year dt) (month dt) (day dt) = true ->
  (1000 <= year dt -> strftime_Ymd dt ++ String "_" x = yyyymmdd dt ++ String "_" x)
  /\ (year dt < 1000 -> strftime_Ymd dt ++ String "_" x <> yyyymmdd dt ++ String "_" x).
Proof.
  intros V. rewrite (strftime_Ymd_digits _ V), (yyyymmdd_digits _ V).
  apply valid_date_bounds in V as (Hy & Hm & Hd).
  split; intros Y.
  - unfold plain_digits.
    destruct (Z.ltb_spec (year dt) 10); [lia|].
    destruct (Z.ltb_spec (year dt) 100); [lia|].
    destruct (Z.ltb_spec (year dt) 1000); [lia|reflexivity].
  - plain_cases (year dt); [| | |lia];
      unfold four_digits, two_digits;
      repeat (rewrite append_cons || rewrite append_nil);
      intros E; peel E; stamp_clash.
Qed.

(** The stamp of the id gives the date back. *)
Lemma stamp_inj d1 d2 x1 x2 :
  valid_date (year d1) (month d1) (day d1) = true ->
  valid_date (year d2) (month d2) (day d2) = true ->
  strftime_Ymd d1 ++ String "_" x1 = strftime_Ymd d2 ++ String "_" x2 ->
  to_date d1 = to_date d2 /\ x1 = x2.
Proof.
  intros V1 V2. rewrite !strftime_Ymd_digits by assumption.
  apply valid_date_bounds in V1 as (Hy1 & Hm1 & Hd1).
  apply valid_date_bounds in V2 as (Hy2 & Hm2 & Hd2).
  plain_cases (year d1); plain_cases (year d2);
    unfold four_digits, two_digits;
    repeat (rewrite append_cons || rewrite append_nil);
    intros E; peel E; try stamp_clash;
    repeat match goal with
           | H : digit_char _ = digit_char _ |- _ =>
               apply digit_char_inj in H;
               [|Z.to_euclidean_division_equations; lia
                |Z.to_euclidean_division_equations; lia]
           end;
    (split; [|exact E]); unfold to_date; f_equal;
    Z.to_euclidean_division_equations; lia.
Qed.

End StampFacts.

(** ** The row parser *)
Module ParserFacts.
Import PyStr PyDate Parser Wording Samples PyStrFacts StampFacts.

Section WithHash.
Variable hash : string -> Z.

(** With a content that is kept and a date cell that is not missing,
    the row stands or falls with the date. *)
Lemma parse_cells_kept v cc :
  content_kept (content_text cc) = true ->
  parse_cells hash (Value v) cc
  = match coerce_date v with
    | Resolved d => RowAdded (make_event hash d (content_text cc))
    | Unresolved => RowSkipped DateNotParsed
    | DateError => RowError
    end.
Proof.
  unfold content_kept, parse_cells. intros K.
  apply andb_true_iff in K as [K K3]. apply andb_true_iff in K as [K1 K2].
  apply negb_true_iff in K1, K2, K3. now rewrite K1, K2, K3.
Qed.

Lemma datetime_new_midnight y m d dt :
  datetime_new y m d = Some dt ->
  valid_date (year dt) (month dt) (day dt) = true
  /\ hour dt = 0%Z /\ minute dt = 0%Z /\ second dt = 0%Z.
Proof.
  unfold datetime_new. destruct (valid_date y m d) eqn:V; [|discriminate].
  intros [= <-]. simpl. auto.
Qed.

Lemma strptime_Ymd_midnight t dt :
  strptime_Ymd t = Some dt ->
  valid_date (year dt) (month dt) (day dt) = true
  /\ hour dt = 0%Z /\ minute dt = 0%Z /\ second dt = 0%Z.
Proof.
  unfold strptime_Ymd.
  repeat match goal with
         | |- context [match ?x with _ => _ end] => destruct x; try discriminate
         end;
    apply datetime_new_midnight.
Qed.

Lemma coerce_date_slash s :
  contains "/" s = true -> coerce_date (VStr s) = slash_date s.
Proof. intros H. unfold coerce_date. cbn [str_of_scalar]. now rewrite H. Qed.

Lemma coerce_date_dash s :
  contains "/" s = false -> contains "-" s = true -> contains "T" s = false ->
  coerce_date (VStr s) = dash_date s.
Proof.
  intros H1 H2 H3. unfold coerce_date. cbn [str_of_scalar].
  now rewrite H1, H2, H3.
Qed.

Lemma dash_date_worded s : dash_date s = dash_date_as_worded (lstrip s).
Proof.
  unfold dash_date, dash_date_as_worded.
  pose proof (PyStrFacts.split_ws_head s) as H.
  destruct (split_ws s) as [|token rest].
  - rewrite H. reflexivity.
  - destruct H as [-> _]. reflexivity.
Qed.

Lemma parse_rows_app cols k rs1 rs2 :
  parse_rows hash cols k (rs1 ++ rs2)
  = (parse_rows hash cols k rs1 ++ parse_rows hash cols (k + length rs1) rs2)%list.
Proof.
  revert k. induction rs1 as [|row rs1 IH]; intros k; simpl.
  - now rewrite Nat.add_0_r.
  - rewrite IH, <- app_assoc. do 3 f_equal. lia.
Qed.

Lemma parse_cells_added dv cc e :
  parse_cells hash dv cc = RowAdded e ->
  exists d, e = make_event hash d (content_text cc).
Proof.
  unfold parse_cells. destruct dv as [k|v]; [discriminate|].
  destruct (_ || _); [discriminate|].
  destruct (String.eqb _ "content"); [discriminate|].
  destruct (coerce_date v); try discriminate.
  intros [= <-]. eauto.
Qed.

Lemma parse_row_added cols idx row e :
  parse_row hash cols idx row = RowAdded e ->
  exists d c, e = make_event hash d c.
Proof.
  unfold parse_row. destruct (is_header_row idx row); [discriminate|].
  destruct (select_cells cols row) as [[dv cc]|]; [|discriminate].
  intros H. apply parse_cells_added in H as [d ->]. eauto.
Qed.

Lemma parse_rows_event cols k rs e :
  In e (parse_rows hash cols k rs) -> exists d c, e = make_event hash d c.
Proof.
  revert k. induction rs as [|row rs IH]; intros k; simpl; [tauto|].
  rewrite in_app_iff. intros [H|H]; [|eauto].
  destruct (parse_row hash cols k row) eqn:E; simpl in H; try tauto.
  destruct H as [<-|[]]. eapply parse_row_added; eauto.
Qed.

Lemma strftime_Ymd_date d d' :
  to_date d = to_date d' -> strftime_Ymd d = strftime_Ymd d'.
Proof. unfold to_date, strftime_Ymd. now intros [= -> -> ->]. Qed.


(** C3. A date cell that is a text with a slash is cut at the slashes.
    Three parts are read as day, month and year, the year after a
    ["20"] when it has two characters, so that two digits [ab] give
    the year 2000 + ab; when the three numbers are a date of the
    calendar, the row becomes an event on that date. Any other number
    of parts leaves the date unresolved and the row is dropped.
    ["05/03/24"] is 5 March 2024. *)
Theorem slash_text_is_day_month_year (s : string) (cc : Cell) :
  contains "/" s = true ->
  content_kept (content_text cc) = true ->
  (forall d m y D M Y,
      split "/" s = [d; m; y] ->
      int d = Some D -> int m = Some M ->
      int (if (String.length y =? 2)%nat then "20" ++ y else y) = Some Y ->
      valid_date Y M D = true ->
      coerce_date (VStr s) = Resolved (mkdatetime Y M D 0 0 0)
      /\ parse_cells hash (Value (VStr s)) cc
         = RowAdded (make_event hash (mkdatetime Y M D 0 0 0) (content_text cc)))
  /\ (forall d m a b D M,
      split "/" s = [d; m; String a (String b EmptyString)] ->
      is_digit a = true -> is_digit b = true ->
      int d = Some D -> int m = Some M ->
      valid_date (2000 + 10 * digit_val a + digit_val b) M D = true ->
      coerce_date (VStr s)
      = Resolved (mkdatetime (2000 + 10 * digit_val a + digit_val b) M D 0 0 0))
  /\ (length (split "/" s) <> 3%nat ->
      coerce_date (VStr s) = Unresolved
      /\ parse_cells hash (Value (VStr s)) cc = RowSkipped DateNotParsed)
  /\ coerce_date (VStr "05/03/24") = Resolved (mkdatetime 2024 3 5 0 0 0).
Proof.
  intros Hs Hc.
  assert (G : forall d m y D M Y,
             split "/" s = [d; m; y] ->
             int d = Some D -> int m = Some M ->
             int (if (String.length y =? 2)%nat then "20" ++ y else y) = Some Y ->
             valid_date Y M D = true ->
             coerce_date (VStr s) = Resolved (mkdatetime Y M D 0 0 0)).
  { intros d m y D M Y Hp Hd Hm Hy Hv.
    rewrite (coerce_date_slash s Hs). unfold slash_date. rewrite Hp.
    cbv zeta. rewrite Hy, Hm, Hd. unfold datetime_new. now rewrite Hv. }
  assert (N : length (split "/" s) <> 3%nat -> coerce_date (VStr s) = Unresolved).
  { intros Hn. rewrite (coerce_date_slash s Hs). unfold slash_date.
    destruct (split "/" s) as [|p1 [|p2 [|p3 [|p4 ps]]]]; try reflexivity.
    simpl in Hn. congruence. }
  split; [|split; [|split]].
  - intros d m y D M Y Hp Hd Hm Hy Hv. split; [eapply G; eauto|].
    rewrite (parse_cells_kept _ _ Hc). erewrite G; eauto.
  - intros d m a b D M Hp Ha Hb Hd Hm Hv.
    eapply G; eauto.
    change (String.length (String a (String b EmptyString)) =? 2)%nat with true.
    cbv iota. now apply PyStrFacts.int_two_digit_year.
  - intros Hn. split; [now apply N|].
    rewrite (parse_cells_kept _ _ Hc). now rewrite N.
  - reflexivity.
Qed.

(** C4, as the code has it. A date cell that is a text with a hyphen,
    without [T] and without a slash: the first run of characters that
    are not spaces, which is the text before the first space once the
    leading spaces are dropped, is read by [strptime] with
    [%Y-%m-%d]; when that fails the date is unresolved and the row is
    dropped. For a text that does not begin with a space this is the
    text before its first space. A date that is read is a date of the
    calendar, at midnight. ["2024-03-05 10:00:00"] is 5 March 2024. *)
Theorem dash_text_first_token (s : string) (cc : Cell) :
  contains "-" s = true -> contains "T" s = false -> contains "/" s = false ->
  coerce_date (VStr s) = dash_date_as_worded (lstrip s)
  /\ (content_kept (content_text cc) = true ->
      parse_cells hash (Value (VStr s)) cc
      = match strptime_Ymd (before_first_space (lstrip s)) with
        | Some d => RowAdded (make_event hash d (content_text cc))
        | None => RowSkipped DateNotParsed
        end)
  /\ (lstrip s = s -> coerce_date (VStr s) = dash_date_as_worded s)
  /\ (forall d, coerce_date (VStr s) = Resolved d ->
      valid_date (year d) (month d) (day d) = true
      /\ hour d = 0%Z /\ minute d = 0%Z /\ second d = 0%Z)
  /\ coerce_date (VStr "2024-03-05 10:00:00") = Resolved (mkdatetime 2024 3 5 0 0 0).
Proof.
  intros Hd Ht Hs.
  assert (E : coerce_date (VStr s) = dash_date_as_worded (lstrip s)).
  { rewrite (coerce_date_dash s Hs Hd Ht). apply dash_date_worded. }
  split; [exact E|split; [|split; [|split]]].
  - intros K. rewrite (parse_cells_kept _ _ K), E.
    unfold dash_date_as_worded. now destruct (strptime_Ymd _).
  - intros L. now rewrite E, L.
  - intros d H. rewrite E in H. unfold dash_date_as_worded in H.
    destruct (strptime_Ymd _) eqn:P; [|discriminate].
    injection H as <-. now apply strptime_Ymd_midnight in P.
  - reflexivity.
Qed.


(** C5. A row whose date cell is missing, or whose content comes out
    empty, or whose content is the word "content" in any case, is
    skipped by one of the tests of the loop, without an exception,
    whatever its date cell holds otherwise; the events of the frame
    are those of the rows before it and of the rows after it. *)
Theorem unusable_row_is_skipped (df : DataFrame) (i : nat) (row : list Cell)
        (dv cc : Cell) :
  nth_error (rows df) i = Some row ->
  select_cells (columns df) row = Some (dv, cc) ->
  isna dv = true \/ content_text cc = EmptyString
  \/ lower (content_text cc) = "content" ->
  (exists why, parse_row hash (columns df) i row = RowSkipped why)
  /\ parse_event_data hash df
     = (parse_rows hash (columns df) 0 (firstn i (rows df))
        ++ parse_rows hash (columns df) (S i) (skipn (S i) (rows df)))%list.
Proof.
  intros Hrow Hsel Hbad.
  assert (Sk : exists why, parse_row hash (columns df) i row = RowSkipped why).
  { unfold parse_row. destruct (is_header_row i row); [eauto|].
    rewrite Hsel. unfold parse_cells.
    destruct dv as [k|v]; [eauto|].
    destruct Hbad as [Hbad|[Hbad|Hbad]]; [discriminate| |].
    - rewrite Hbad. simpl. eauto.
    - destruct (_ || _); [eauto|]. rewrite Hbad. simpl. eauto. }
  split; [exact Sk|].
  destruct Sk as [why Sk].
  unfold parse_event_data.
  rewrite <- (firstn_skipn i (rows df)) at 1.
  rewrite parse_rows_app. f_equal.
  assert (Hlen : length (firstn i (rows df)) = i).
  { apply firstn_length_le. apply Nat.lt_le_incl.
    apply nth_error_Some. rewrite Hrow. discriminate. }
  rewrite Hlen. simpl.
  assert (Hsk : skipn i (rows df) = row :: skipn (S i) (rows df)).
  { clear -Hrow. revert i Hrow. induction (rows df) as [|r rs IH]; intros i H.
    - destruct i; discriminate.
    - destruct i; simpl in *; [injection H as ->; reflexivity|]. now apply IH. }
  rewrite Hsk. simpl. now rewrite Sk.
Qed.

(** C10. A row whose content comes out as the text ["nan"] fares as
    the same row with an empty content: it is skipped, by the header
    test, the missing-date test or the empty-content test, although
    ["nan"] is not the empty text. *)
Theorem nan_text_is_skipped_as_empty (cols : list string) (idx : nat)
        (row : list Cell) (dv cc : Cell) :
  select_cells cols row = Some (dv, cc) ->
  content_text cc = "nan" ->
  parse_cells hash dv cc = parse_cells hash dv (Value (VStr EmptyString))
  /\ (exists why, parse_row hash cols idx row = RowSkipped why
                  /\ (why = HeaderRow \/ why = DateIsNaN \/ why = ContentEmpty))
  /\ (isna dv = false -> parse_cells hash dv cc = RowSkipped ContentEmpty)
  /\ content_text cc <> EmptyString.
Proof.
  intros Hsel Hnan.
  assert (E : parse_cells hash dv cc = parse_cells hash dv (Value (VStr EmptyString))).
  { unfold parse_cells. rewrite Hnan. destruct dv; reflexivity. }
  split; [exact E|split; [|split]].
  - unfold parse_row. destruct (is_header_row idx row); [eauto|].
    rewrite Hsel, E. destruct dv; simpl; eauto.
  - intros Hdv. rewrite E. destruct dv; [discriminate|reflexivity].
  - rewrite Hnan. discriminate.
Qed.

(** C6, as the code has it. Every event of the parser carries as id
    [strftime('%Y%m%d')] of its date, an underscore and the hash of its
    content. For a date of the calendar from the year 1000 on, that is
    the date as YYYYMMDD, an underscore and the hash; before the year
    1000 the year is printed without leading zeros and the id is not
    the one worded. Two events, of the same run of the parser or of
    two runs in the same process, with the same calendar date and the
    same content have the same id. *)
Theorem event_id_is_stamp_and_hash (df : DataFrame) (e : Event) :
  In e (parse_event_data hash df) ->
  unique_id e = strftime_Ymd (date e) ++ "_" ++ str_of_Z (hash (content e))
  /\ (valid_date (year (date e)) (month (date e)) (day (date e)) = true ->
      ((1000 <= year (date e))%Z ->
       unique_id e = id_as_worded hash (date e) (content e))
      /\ ((year (date e) < 1000)%Z ->
          unique_id e <> id_as_worded hash (date e) (content e)))
  /\ forall df' e',
      In e' (parse_event_data hash df') ->
      to_date (date e') = to_date (date e) -> content e' = content e ->
      unique_id e' = unique_id e.
Proof.
  intros He.
  apply parse_rows_event in He as (d & c & ->).
  split; [reflexivity|split].
  - intros V. cbn [date content unique_id make_event]. unfold id_as_worded.
    rewrite !append_cons, !append_nil.
    exact (stamp_worded d (str_of_Z (hash c)) V).
  - intros df' e' He' Hd Hc.
    apply parse_rows_event in He' as (d' & c' & ->).
    simpl in *. subst c'. now rewrite (strftime_Ymd_date _ _ Hd).
Qed.

End WithHash.

Lemma slash_text_is_day_month_year_example :
  parse_cells length_hash (Value (VStr "05/03/24")) (Value (VStr "Launch Party"))
  = RowAdded (make_event length_hash (mkdatetime 2024 3 5 0 0 0) "Launch Party").
Proof.
  destruct (slash_text_is_day_month_year length_hash "05/03/24"
              (Value (VStr "Launch Party")) eq_refl eq_refl) as [H _].
  exact (proj2 (H "05" "03" "24" 5%Z 3%Z 2024%Z
                  eq_refl eq_refl eq_refl eq_refl eq_refl)).
Defined.

Lemma dash_text_first_token_example :
  coerce_date (VStr "2024-03-05 10:00:00")
  = dash_date_as_worded (lstrip "2024-03-05 10:00:00").
Proof.
  exact (proj1 (dash_text_first_token length_hash "2024-03-05 10:00:00"
                  (Value (VStr "Launch Party")) eq_refl eq_refl eq_refl)).
Defined.

(** C4, as worded, fails on a text that begins with a space: the text
    before its first space is empty and is no date, yet the parser
    reads the date. *)
Lemma dash_text_leading_space :
  contains "-" " 2024-03-05" = true
  /\ contains "T" " 2024-03-05" = false
  /\ contains "/" " 2024-03-05" = false
  /\ dash_date_as_worded " 2024-03-05" = Unresolved
  /\ coerce_date (VStr " 2024-03-05") = Resolved (mkdatetime 2024 3 5 0 0 0)
  /\ coerce_date (VStr " 2024-03-05") <> dash_date_as_worded " 2024-03-05".
Proof. repeat split; try reflexivity. discriminate. Qed.

Lemma unusable_row_is_skipped_example :
  (exists why, parse_row length_hash (columns march_frame) 2
                         [Missing NaN; Value (VStr "Workshop")] = RowSkipped why)
  /\ parse_event_data length_hash march_frame
     = (parse_rows length_hash (columns march_frame) 0 (firstn 2 (rows march_frame))
        ++ parse_rows length_hash (columns march_frame) 3 (skipn 3 (rows march_frame)))%list.
Proof.
  apply (unusable_row_is_skipped length_hash march_frame 2
           [Missing NaN; Value (VStr "Workshop")] (Missing NaN) (Value (VStr "Workshop"))).
  - reflexivity.
  - reflexivity.
  - left. reflexivity.
Defined.

Lemma nan_text_is_skipped_as_empty_example :
  parse_cells length_hash (Value (VStr "2024-03-05 10:00:00")) (Value (VStr "nan"))
  = RowSkipped ContentEmpty.
Proof.
  destruct (nan_text_is_skipped_as_empty length_hash ["Date"; "content"] 1
              [Value (VStr "2024-03-05 10:00:00"); Value (VStr "nan")]
              (Value (VStr "2024-03-05 10:00:00")) (Value (VStr "nan"))
              eq_refl eq_refl) as (_ & _ & H & _).
  exact (H eq_refl).
Defined.

Lemma event_id_is_stamp_and_hash_example :
  unique_id (make_event length_hash (mkdatetime 2024 3 5 0 0 0) "Launch Party")
  = "20240305_12"
  /\ unique_id (make_event length_hash (mkdatetime 2024 3 5 0 0 0) "Launch Party")
     = id_as_worded length_hash (mkdatetime 2024 3 5 0 0 0) "Launch Party".
Proof.
  destruct (event_id_is_stamp_and_hash length_hash march_frame
              (make_event length_hash (mkdatetime 2024 3 5 0 0 0) "Launch Party"))
    as (H & W & _).
  - vm_compute. left. reflexivity.
  - split; [rewrite H; reflexivity|].
    apply (proj1 (W eq_refl)). vm_compute. discriminate.
Defined.

(** C6, as worded, fails on a date before the year 1000, which the
    parser reads from a year of two digits followed by a space: the
    row is parsed, and its id has the year as [24], not as [0024]. *)
Lemma event_id_of_a_short_year :
  parse_cells length_hash (Value (VStr "05/03/24 ")) (Value (VStr "Launch Party"))
  = RowAdded (mkevent (mkdatetime 24 3 5 0 0 0) "Launch Party" "240305_12")
  /\ In (mkevent (mkdatetime 24 3 5 0 0 0) "Launch Party" "240305_12")
        (parse_event_data length_hash
           (mkframe ["Date"; "content"]
                    [[Value (VStr "05/03/24 "); Value (VStr "Launch Party")]]))
  /\ id_as_worded length_hash (mkdatetime 24 3 5 0 0 0) "Launch Party" = "00240305_12"
  /\ "240305_12" <> id_as_worded length_hash (mkdatetime 24 3 5 0 0 0) "Launch Party".
Proof.
  split; [reflexivity|split; [left; reflexivity|split; [reflexivity|]]].
  vm_compute. discriminate.
Qed.

End ParserFacts.

(** ** The message formatter *)
Module FormatterFacts.
Import PyStr PyDate Parser Formatter Wording Samples.

Example search_time_finds :
  search_time "Doors 19:00-21:30   PM sharp" = Some "19:00-21:30   PM"
  /\ search_time "119:00-1:30AM" = Some "19:00-1:30AM".
Proof. split; reflexivity. Qed.

Example search_time_misses :
  search_time "9:0-11:00 AM" = None /\ search_time "9:00-11:00 am" = None
  /\ search_time "9:00 - 11:00 AM" = None.
Proof. repeat split. Qed.

Lemma title_of_split s : title_of (split newline s) = first_line s.
Proof.
  rewrite <- PyStrFacts.split_head_first_line.
  pose proof (PyStrFacts.split_not_nil newline s) as H.
  now destruct (split newline s).
Qed.

Lemma is_detail_worded line :
  is_detail line = negb (blank line) && negb (startswith "-" line).
Proof. unfold is_detail. now rewrite PyStrFacts.strip_empty_blank. Qed.

Lemma collect_details_filter ls :
  collect_details ls
  = map strip (List.filter (fun line => negb (blank line) && negb (startswith "-" line)) ls).
Proof.
  induction ls as [|l ls IH]; [reflexivity|].
  cbn [collect_details List.filter]. rewrite is_detail_worded.
  destruct (negb (blank l) && negb (startswith "-" l)); cbn [map]; now rewrite IH.
Qed.

(** C8. The title put in the embed, between the asterisks of the
    description, is the first line of the content, the text before
    its first line feed; the code falls back on "Event Reminder" for
    an empty list of lines, which [split] never returns. *)
Theorem title_is_first_line (clock : datetime) (ev : Event) :
  description (format_event_message clock ev)
  = "**" ++ first_line (content ev) ++ "**"
  /\ title_of (split newline (content ev)) = first_line (content ev)
  /\ title_of [] = "Event Reminder"
  /\ split newline (content ev) <> [].
Proof.
  split; [|split; [|split]].
  - unfold format_event_message. cbn [description].
    now rewrite title_of_split.
  - apply title_of_split.
  - reflexivity.
  - apply PyStrFacts.split_not_nil.
Qed.

(** C7, as the code has it. The details are the lines after the first
    that are not blank and do not start with a hyphen, in their order,
    each with the spaces around it stripped; the field shows the first
    five, one per line, and is absent when there is none. The content
    of the example gives the title "Launch Party", the time
    "9:00-11:00 AM", the location, and details with "More info" and
    without the line of the hyphen. *)
Theorem details_are_stripped_lines (clock : datetime) (ev : Event) :
  details_of (content ev) = map strip (detail_lines (content ev))
  /\ field_value "ℹ️ Details" (format_event_message clock ev)
     = match firstn 5 (map strip (detail_lines (content ev))) with
       | [] => None
       | shown => Some (join nl shown)
       end
  /\ (content ev = launch_party ->
      description (format_event_message clock ev) = "**Launch Party**"
      /\ field_value "⏰ Time" (format_event_message clock ev) = Some "9:00-11:00 AM"
      /\ field_value "📍 Location" (format_event_message clock ev)
         = Some "Jakarta, Indonesia"
      /\ field_value "ℹ️ Details" (format_event_message clock ev)
         = Some ("9:00-11:00 AM" ++ nl ++ "Jakarta, Indonesia" ++ nl ++ "More info")
      /\ In "More info" (details_of (content ev))
      /\ ~ In "- ignore this" (details_of (content ev))).
Proof.
  assert (D : details_of (content ev) = map strip (detail_lines (content ev))).
  { unfold details_of, detail_lines. apply collect_details_filter. }
  split; [exact D|split].
  - rewrite <- D. unfold field_value, format_event_message, details_of.
    cbn [fields].
    destruct (contains_str "Jakarta, Indonesia" (content ev));
      destruct (search_time (content ev));
      destruct (collect_details (tail (split newline (content ev)))) as [|d1 ds];
      reflexivity.
  - intros C. unfold field_value, format_event_message, details_of.
    cbn [fields description]. rewrite C.
    repeat split; try reflexivity.
    + vm_compute. tauto.
    + vm_compute. intros H.
      repeat (destruct H as [H|H]; [discriminate H|]). exact H.
Qed.

Lemma details_are_stripped_lines_example :
  field_value "⏰ Time"
    (format_event_message (mkdatetime 2024 3 4 9 0 0)
       (mkevent (mkdatetime 2024 3 5 0 0 0) launch_party "20240305_1"))
  = Some "9:00-11:00 AM".
Proof.
  destruct (details_are_stripped_lines (mkdatetime 2024 3 4 9 0 0)
              (mkevent (mkdatetime 2024 3 5 0 0 0) launch_party "20240305_1"))
    as (_ & _ & H).
  exact (proj1 (proj2 (H eq_refl))).
Defined.

(** C7, as worded, fails on a line with spaces around it: the line is
    a detail line, but the embed shows it stripped. *)
Lemma details_lose_their_spaces :
  details_as_worded team_sync = ["  Room 2"]
  /\ firstn 5 (details_of team_sync) = ["Room 2"]
  /\ field_value "ℹ️ Details"
       (format_event_message (mkdatetime 2024 3 4 9 0 0)
          (mkevent (mkdatetime 2024 3 5 0 0 0) team_sync "20240305_1"))
     = Some "Room 2"
  /\ firstn 5 (details_of team_sync) <> details_as_worded team_sync.
Proof. repeat split; try reflexivity. discriminate. Qed.

End FormatterFacts.

(** ** The announcement check and the command *)
Module BotFacts.
Import PyStr PyDate Parser Formatter Bot Samples.

Section WithSink.
Context {S : Type}.
Variable send : S -> Z -> Embed -> S * bool.

Implicit Types (st : State S) (events : list Event) (e ev : Event).

(** The loop only adds to the set, and leaves the channel and the
    task alone. *)
Lemma announce_grows cid clock tm events st :
  announced_events st ⊆ announced_events (after (announce send cid clock tm events st)).
Proof.
  revert st. induction events as [|ev rest IH]; intros st; simpl; [done|].
  case_bool_decide; [|apply IH].
  case_bool_decide; [apply IH|].
  destruct (send (sink st) cid (format_event_message clock ev)) as [s' [|]]; simpl.
  - etrans; [|apply IH]. simpl. set_solver.
  - done.
Qed.

Lemma announce_frame cid clock tm events st :
  channel_id (after (announce send cid clock tm events st)) = channel_id st
  /\ running (after (announce send cid clock tm events st)) = running st.
Proof.
  revert st. induction events as [|ev rest IH]; intros st; simpl; [done|].
  case_bool_decide; [|apply IH].
  case_bool_decide; [apply IH|].
  destruct (send (sink st) cid (format_event_message clock ev)) as [s' [|]]; simpl.
  - apply (IH (add_announced (unique_id ev) (set_sink s' st))).
  - done.
Qed.

Lemma announce_task cid clock tm events st :
  task (after (announce send cid clock tm events st)) = task st.
Proof.
  revert st. induction events as [|ev rest IH]; intros st; simpl; [done|].
  case_bool_decide; [|apply IH].
  case_bool_decide; [apply IH|].
  destruct (send (sink st) cid (format_event_message clock ev)) as [s' [|]]; simpl.
  - apply (IH (add_announced (unique_id ev) (set_sink s' st))).
  - done.
Qed.

(** Whatever went out in a tick is in the set afterwards. *)
Lemma announce_sent_announced cid clock tm events st d :
  In d (sent (announce send cid clock tm events st)) ->
  unique_id (event d) ∈ announced_events (after (announce send cid clock tm events st)).
Proof.
  revert st. induction events as [|ev rest IH]; intros st; simpl; [tauto|].
  case_bool_decide; [|apply IH].
  case_bool_decide; [apply IH|].
  destruct (send (sink st) cid (format_event_message clock ev)) as [s' [|]]; simpl.
  - intros [<-|Hrest]; [|now apply IH].
    simpl. eapply announce_grows. simpl. set_solver.
  - tauto.
Qed.

(** An id of the set is never sent again. *)
Lemma announce_silent cid clock tm events st id :
  id ∈ announced_events st ->
  for_id id (sent (announce send cid clock tm events st)) = [].
Proof.
  revert st. induction events as [|ev rest IH]; intros st Hin; simpl; [done|].
  case_bool_decide; [|now apply IH].
  case_bool_decide; [now apply IH|].
  destruct (send (sink st) cid (format_event_message clock ev)) as [s' [|]]; simpl.
  - destruct (String.eqb_spec (unique_id ev) id) as [Heq|_]; [subst id; done|].
    apply IH. simpl. set_solver.
  - done.
Qed.

(** At most one message for an id in a tick. *)
Lemma announce_at_most_once cid clock tm events st id :
  (length (for_id id (sent (announce send cid clock tm events st))) <= 1)%nat.
Proof.
  revert st. induction events as [|ev rest IH]; intros st; simpl; [lia|].
  case_bool_decide; [|apply IH].
  case_bool_decide; [apply IH|].
  destruct (send (sink st) cid (format_event_message clock ev)) as [s' [|]]; simpl; [|lia].
  destruct (String.eqb_spec (unique_id ev) id) as [<-|_]; [|apply IH].
  rewrite announce_silent; [simpl; lia|]. simpl. set_solver.
Qed.

(** A tick that runs to its end sends the one message for an event
    of tomorrow that the set does not hold. *)
Lemma announce_delivers cid clock tm events st e :
  In e events -> to_date (date e) = tm ->
  unique_id e ∉ announced_events st ->
  ended (announce send cid clock tm events st) = Completed ->
  exists e', In e' events /\ unique_id e' = unique_id e
             /\ for_id (unique_id e) (sent (announce send cid clock tm events st))
                = [mkdelivery cid e' (format_event_message clock e')].
Proof.
  revert st. induction events as [|ev rest IH]; intros st Hin Hd Hn; simpl; [done|].
  case_bool_decide as Hdate.
  - case_bool_decide as Hknown.
    + intros Hend. destruct Hin as [Heq|Hin]; [subst ev; contradiction|].
      destruct (IH st Hin Hd Hn Hend) as (e' & He' & Hid & Hsent). eauto.
    + destruct (send (sink st) cid (format_event_message clock ev)) as [s' [|]];
        simpl; [|discriminate].
      intros Hend.
      destruct (String.eqb_spec (unique_id ev) (unique_id e)) as [Heq|Hne].
      * exists ev. split; [now left|]. split; [done|].
        rewrite announce_silent; [done|]. simpl.
        apply elem_of_union_l, elem_of_singleton_2. congruence.
      * destruct Hin as [Heq|Hin]; [subst ev; done|].
        assert (Hn' : unique_id e ∉ announced_events
                        (add_announced (unique_id ev) (set_sink s' st))).
        { simpl. rewrite not_elem_of_union, not_elem_of_singleton.
          split; [congruence|done]. }
        destruct (IH _ Hin Hd Hn' Hend) as (e' & He' & Hid & Hsent). eauto.
  - intros Hend. destruct Hin as [Heq|Hin]; [subst ev; contradiction|].
    destruct (IH st Hin Hd Hn Hend) as (e' & He' & Hid & Hsent). eauto.
Qed.

(** A tick that ends on a failed send for [e]: [e] is an event of
    tomorrow, and its id is not in the set. *)
Lemma announce_failed cid clock tm events st e :
  ended (announce send cid clock tm events st) = SendFailed e ->
  In e events /\ to_date (date e) = tm
  /\ unique_id e ∉ announced_events (after (announce send cid clock tm events st)).
Proof.
  revert st. induction events as [|ev rest IH]; intros st; simpl; [done|].
  case_bool_decide as Hdate.
  - case_bool_decide as Hknown.
    + intros H. destruct (IH st H) as (? & ? & ?). auto.
    + destruct (send (sink st) cid (format_event_message clock ev)) as [s' [|]]; simpl.
      * intros H. destruct (IH _ H) as (? & ? & ?). auto.
      * intros [= <-]. auto.
  - intros H. destruct (IH st H) as (? & ? & ?). auto.
Qed.

(** A check that runs to its end sends one message for the id of an
    event of tomorrow that the set does not hold, and the set holds the
    id afterwards. *)
Lemma tomorrow_event_steps cid clock events st e :
  In e events ->
  tomorrow_of clock = Some (to_date (date e)) ->
  unique_id e ∉ announced_events st ->
  ended (announce_tomorrow send cid clock events st) = Completed ->
  length (for_id (unique_id e) (sent (announce_tomorrow send cid clock events st))) = 1%nat
  /\ unique_id e ∈ announced_events (after (announce_tomorrow send cid clock events st)).
Proof.
  intros Hin Htm Hnew Hend.
  unfold announce_tomorrow in Hend |- *. rewrite Htm in Hend |- *.
  destruct (announce_delivers cid clock _ events st e Hin eq_refl Hnew Hend)
    as (e' & He' & Hid & Hsent).
  split; [now rewrite Hsent|].
  assert (Hd : In (mkdelivery cid e' (format_event_message clock e'))
                  (for_id (unique_id e)
                     (sent (announce send cid clock (to_date (date e)) events st)))).
  { rewrite Hsent. now left. }
  unfold for_id in Hd. apply filter_In in Hd as [Hd _].
  apply announce_sent_announced in Hd. simpl in Hd. now rewrite Hid in Hd.
Qed.



Section WithConfig.
Variable hash : string -> Z.
Variable CHECK_INTERVAL : Z.

Lemma check_events_frame env st :
  channel_id (after (check_events send hash env st)) = channel_id st
  /\ running (after (check_events send hash env st)) = running st.
Proof.
  unfold check_events, announce_tomorrow.
  destruct (channel_id st) eqn:C; [|done].
  destruct (get_channel env z); [|simpl; auto].
  destruct (fetched env); simpl; auto.
  destruct (tomorrow_of (now env)); simpl; auto.
  rewrite <- C. apply announce_frame.
Qed.


(** With a channel that is set and found and a spreadsheet that
    loads, [check_events] is the check on the parsed events. *)
Lemma check_events_loaded env st cid df :
  channel_id st = Some cid -> get_channel env cid = true ->
  fetched env = Loaded df ->
  check_events send hash env st
  = announce_tomorrow send cid (now env) (parse_event_data hash df) st.
Proof. intros C G F. unfold check_events. now rewrite C, G, F. Qed.

(** The same at the level of [check_events]: an event that the parser
    reads from the spreadsheet for tomorrow is announced by a tick that
    runs to its end. *)
Lemma check_events_announces env st cid df e :
  channel_id st = Some cid -> get_channel env cid = true ->
  fetched env = Loaded df ->
  In e (parse_event_data hash df) ->
  tomorrow_of (now env) = Some (to_date (date e)) ->
  unique_id e ∉ announced_events st ->
  ended (check_events send hash env st) = Completed ->
  length (for_id (unique_id e) (sent (check_events send hash env st))) = 1%nat
  /\ unique_id e ∈ announced_events (after (check_events send hash env st)).
Proof.
  intros C G F Hin Htm Hnew. rewrite (check_events_loaded env st cid df C G F).
  intros Hend.
  destruct (tomorrow_event_steps cid (now env) (parse_event_data hash df) st e
              Hin Htm Hnew Hend) as [H1 H2].
  now split.
Qed.

Lemma check_events_task env st :
  task (after (check_events send hash env st)) = task st.
Proof.
  unfold check_events, announce_tomorrow.
  destruct (channel_id st) eqn:C; [|done].
  destruct (get_channel env z); [|simpl; auto].
  destruct (fetched env); simpl; auto.
  destruct (tomorrow_of (now env)); simpl; auto.
  apply announce_task.
Qed.

(** What the stop command leaves of the state, whether its answer
    gets through or not. *)
Lemma stop_state ctx env st :
  state_after (excel_command send hash CHECK_INTERVAL ctx env Stop st)
  = if running st then set_channel None (set_task (stop (task st)) st) else st.
Proof.
  unfold excel_command, reply_and_return.
  destruct (running st); destruct (ctx_send ctx _); reflexivity.
Qed.

Lemma stop_requested_running t : stop_requested t = true -> is_running t = true.
Proof. destruct t; simpl; congruence. Qed.

(** No command withdraws a request to stop. *)
Lemma stop_request_stays ctx env action st :
  stop_requested (task st) = true ->
  stop_requested (task (state_after (excel_command send hash CHECK_INTERVAL
                                                   ctx env action st))) = true.
Proof.
  intros Q. pose proof (stop_requested_running _ Q) as R.
  destruct action; unfold excel_command, reply_and_return.
  - unfold running. cbn [task set_channel]. rewrite R.
    destruct (ctx_send ctx (ChannelSet _)); [|exact Q].
    destruct (ctx_send ctx AlreadyRunning); exact Q.
  - unfold running. rewrite R.
    destruct (ctx_send ctx MonitoringStopped); cbn [state_after task set_channel set_task];
      destruct (task st); simpl in *; congruence.
  - destruct (ctx_send ctx _); exact Q.
  - destruct (channel_id st); [|destruct (ctx_send ctx _); exact Q].
    destruct (ctx_send ctx Checking); [|exact Q].
    destruct (ctx_send ctx CheckComplete); cbn [state_after];
      now rewrite check_events_task.
  - destruct (ctx_send ctx Fetching); [|exact Q].
    destruct (debug_body hash ctx env); [exact Q|].
    destruct (ctx_send ctx ErrorReply); exact Q.
  - destruct (ctx_send ctx _); exact Q.
Qed.

(** A loop that was asked to stop ends at its next turn. *)
Lemma stop_request_ends_loop env st :
  stop_requested (task st) = true ->
  task (step send hash CHECK_INTERVAL (Timer env) st) = NoTask.
Proof.
  intros Q. cbn [step].
  destruct (task st) as [|[|]|[|]]; simpl in Q; try discriminate; reflexivity.
Qed.

(** C9, as the code has it. When the task is running, the stop command
    clears the channel and asks the loop to end: the task goes on
    counting as running; a turn of the loop that begins after it, no
    other command between, sends no message and ends the loop, which
    leaves the task ended and the channel cleared. A request to stop
    is withdrawn by no command, and the loop that carries one ends at
    its next turn. When the task is not running, the stop command
    changes nothing, so that a channel that is set stays set. The set
    of announced ids and the outside world are left as they are. *)
Theorem stop_halts_and_clears_when_running ctx env st :
  let st' := state_after (excel_command send hash CHECK_INTERVAL ctx env Stop st) in
  (running st = true ->
   channel_id st' = None
   /\ task st' = stop (task st)
   /\ running st' = true
   /\ stop_requested (task st') = true
   /\ forall env', step send hash CHECK_INTERVAL (Timer env') st'
                   = mkstate None (announced_events st) NoTask (sink st))
  /\ (forall st2,
         stop_requested (task st2) = true ->
         (forall ctx2 env2 action,
             stop_requested
               (task (state_after (excel_command send hash CHECK_INTERVAL
                                                 ctx2 env2 action st2))) = true)
         /\ forall env2,
             running (step send hash CHECK_INTERVAL (Timer env2) st2) = false)
  /\ (running st = false -> st' = st)
  /\ announced_events st' = announced_events st
  /\ sink st' = sink st.
Proof.
  cbv zeta. rewrite stop_state.
  split; [|split; [|split]].
  - intros R. rewrite R. cbn [channel_id task set_channel set_task].
    unfold running in *. cbn [task].
    split; [reflexivity|split; [reflexivity|]].
    destruct (task st) as [|b|b] eqn:T; [discriminate| |];
      (split; [reflexivity|split; [reflexivity|]]); intros env';
      cbn [step task set_channel set_task stop loop_turn];
      reflexivity.
  - intros st2 Q. split.
    + intros ctx2 env2 action. now apply stop_request_stays.
    + intros env2. unfold running. now rewrite stop_request_ends_loop.
  - intros R. now rewrite R.
  - destruct (running st); split; reflexivity.
Qed.

End WithConfig.

End WithSink.



Lemma stop_halts_and_clears_when_running_example :
  channel_id (state_after (excel_command accepting length_hash 30
                                         (heard 7) quiet_env Stop
                                         (on_channel 7 tt))) = None.
Proof.
  refine (proj1 (proj1 (stop_halts_and_clears_when_running accepting
                          length_hash 30 (heard 7) quiet_env
                          (on_channel 7 tt)) _)).
  reflexivity.
Defined.

(** C9, as worded, fails in a state the bot reaches with every answer
    delivered: after start, a turn of the loop, stop, and a second
    start before the next turn of the loop, that turn ends the loop
    and the channel of the second start stays; the stop command then
    finds no running task and leaves the channel set. *)
Lemma stop_leaves_channel_of_late_start :
  reachable_by accepting length_hash 30 answers_all late_start
  /\ running late_start = false
  /\ channel_id late_start = Some 7%Z
  /\ said (excel_command accepting length_hash 30 (heard 7) quiet_env Stop late_start)
     = [NotRunning]
  /\ channel_id (state_after (excel_command accepting length_hash 30
                                            (heard 7) quiet_env Stop late_start))
     = Some 7%Z.
Proof.
  split; [|repeat split].
  unfold late_start.
  repeat (apply reach_step; [|first [exact I | intros r; reflexivity]]).
  apply reach_initial.
Qed.

(** The same after a start whose answer does not get through: the
    channel is set, the task was never started. *)
Lemma stop_leaves_channel_of_failed_start :
  reachable accepting length_hash 30 half_started
  /\ running half_started = false
  /\ channel_id half_started = Some 7%Z
  /\ channel_id (state_after (excel_command accepting length_hash 30
                                            (heard 7) quiet_env Stop half_started))
     = Some 7%Z.
Proof.
  split; [|repeat split].
  unfold half_started, reachable.
  apply reach_step; [apply reach_initial|exact I].
Qed.

(** Right after the stop command the task still counts as running:
    a second start does not start it again, and the loop ends at its
    next turn all the same. *)
Lemma stop_is_not_undone_by_start :
  let stopped := step accepting length_hash 30 (Operator (heard 7) quiet_env Stop)
                      (on_channel 7 tt) in
  let again := excel_command accepting length_hash 30 (heard 8) quiet_env Start stopped in
  running stopped = true
  /\ said again = [ChannelSet 8; AlreadyRunning]
  /\ running (step accepting length_hash 30 (Timer quiet_env) (state_after again)) = false.
Proof. repeat split. Qed.

End BotFacts.

(** ** More on text *)
Module TextFacts.
Import PyStr.
Export PyStrFacts.

Lemma append_nil_r a : a ++ EmptyString = a.
Proof. induction a as [|c a IH]; [reflexivity|]. now rewrite append_cons, IH. Qed.

Lemma append_assoc a b c : (a ++ b) ++ c = a ++ b ++ c.
Proof. induction a as [|x a IH]; [reflexivity|]. now rewrite !append_cons, IH. Qed.

Lemma rstrip_keeps_head c r :
  is_space c = false -> rstrip (String c r) = String c (rstrip r).
Proof. intros H. cbn [rstrip]. rewrite H. now destruct (rstrip r). Qed.

Lemma rstrip_cons c r :
  rstrip (String c r)
  = match rstrip r with
    | EmptyString => if is_space c then EmptyString else String c EmptyString
    | r' => String c r'
    end.
Proof. reflexivity. Qed.

Lemma rstrip_idem s : rstrip (rstrip s) = rstrip s.
Proof.
  induction s as [|c r IH]; [reflexivity|].
  rewrite rstrip_cons. destruct (rstrip r) as [|c' r'] eqn:E.
  - destruct (is_space c) eqn:Hc; [reflexivity|].
    rewrite rstrip_cons. cbn [rstrip]. now rewrite Hc.
  - rewrite rstrip_cons, IH. reflexivity.
Qed.

Lemma lstrip_head s :
  match lstrip s with
  | EmptyString => True
  | String c _ => is_space c = false
  end.
Proof.
  induction s as [|c r IH]; [exact I|].
  cbn [lstrip]. destruct (is_space c) eqn:Hc; [exact IH|exact Hc].
Qed.

Lemma strip_idem s : strip (strip s) = strip s.
Proof.
  unfold strip. pose proof (lstrip_head s) as H.
  destruct (lstrip s) as [|c r]; [reflexivity|].
  rewrite (rstrip_keeps_head c r H).
  rewrite PyStrFacts.lstrip_no_space by exact H.
  rewrite <- (rstrip_keeps_head c r H). apply rstrip_idem.
Qed.

Lemma contains_lstrip c s : contains c (lstrip s) = true -> contains c s = true.
Proof.
  induction s as [|c' r IH]; [discriminate|].
  cbn [lstrip]. destruct (is_space c'); [|auto].
  intros H. cbn [contains]. rewrite (IH H). apply orb_true_r.
Qed.

Lemma contains_rstrip c s : contains c (rstrip s) = true -> contains c s = true.
Proof.
  induction s as [|c' r IH]; [discriminate|].
  cbn [rstrip contains]. destruct (rstrip r) as [|c'' r'] eqn:E.
  - destruct (is_space c'); [discriminate|].
    cbn [contains]. rewrite orb_false_r. intros ->. reflexivity.
  - cbn [contains] in *. intros H. apply orb_true_iff in H as [H|H].
    + now rewrite H.
    + rewrite (IH H). apply orb_true_r.
Qed.

Lemma contains_strip c s : contains c (strip s) = true -> contains c s = true.
Proof. intros H. now apply contains_lstrip, contains_rstrip. Qed.

Lemma split_parts_have_no_sep sep s part :
  In part (split sep s) -> contains sep part = false.
Proof.
  revert part. induction s as [|c r IH]; intros part; cbn [split].
  - intros [<-|[]]. reflexivity.
  - destruct (Ascii.eqb_spec c sep) as [->|Hne].
    + intros [<-|H]; [reflexivity|now apply IH].
    + pose proof (PyStrFacts.split_not_nil sep r) as Hnil.
      destruct (split sep r) as [|w ws]; [contradiction|].
      intros [<-|H].
      * cbn [contains]. rewrite (IH w (or_introl eq_refl)).
        destruct (Ascii.eqb_spec c sep); [contradiction|reflexivity].
      * apply IH. now right.
Qed.

Lemma join_split sep s : join (String sep EmptyString) (split sep s) = s.
Proof.
  induction s as [|c r IH]; [reflexivity|].
  cbn [split]. destruct (Ascii.eqb_spec c sep) as [->|Hne].
  - pose proof (PyStrFacts.split_not_nil sep r) as Hnil.
    destruct (split sep r) as [|w ws] eqn:E; [contradiction|].
    cbn [join]. cbn [join] in IH. rewrite append_nil, append_cons, append_nil.
    f_equal. exact IH.
  - pose proof (PyStrFacts.split_not_nil sep r) as Hnil.
    destruct (split sep r) as [|w ws] eqn:E; [contradiction|].
    destruct ws as [|w' ws'].
    + cbn [join] in *. now rewrite IH.
    + cbn [join] in *. rewrite append_cons. now rewrite IH.
Qed.

Lemma split_first_line sep t body :
  contains sep t = false ->
  split sep (t ++ String sep body) = t :: split sep body.
Proof.
  induction t as [|c t IH]; intros H.
  - rewrite append_nil. cbn [split]. now rewrite Ascii.eqb_refl.
  - cbn [contains] in H. apply orb_false_iff in H as [Hc H].
    rewrite append_cons. cbn [split]. rewrite Hc, (IH H). reflexivity.
Qed.

Lemma prefix_spec a s :
  String.prefix a s = true <-> exists post, s = a ++ post.
Proof.
  revert s. induction a as [|c a IH]; intros s.
  - split; [intros _; now exists s|intros _; now destruct s].
  - destruct s as [|c' s]; simpl; [split; [discriminate|intros [post [=]]]|].
    destruct (ascii_dec c c') as [->|Hne].
    + rewrite IH. split; intros [post H]; exists post; [now rewrite H|now injection H].
    + split; [discriminate|]. intros [post [= E _]]. congruence.
Qed.

Lemma contains_str_spec needle s :
  contains_str needle s = true <-> exists pre post, s = pre ++ needle ++ post.
Proof.
  induction s as [|c s IH]; cbn [contains_str].
  - rewrite orb_false_r, prefix_spec. split.
    + intros [post H]. exists EmptyString, post. exact H.
    + intros [pre [post H]]. destruct pre; [eauto|discriminate].
  - rewrite orb_true_iff, prefix_spec, IH. split.
    + intros [[post H]|[pre [post H]]].
      * exists EmptyString, post. exact H.
      * exists (String c pre), post. simpl. now rewrite H.
    + intros [pre [post H]]. destruct pre as [|c' pre].
      * left. eauto.
      * right. simpl in H. injection H as _ H. eauto.
Qed.

End TextFacts.

(** ** The download *)
Module SheetFacts.
Import PyStr Parser Bot Sheet Notions TextFacts Samples Cases.

Lemma take_id_spec s :
  s = fst (take_id s) ++ snd (take_id s)
  /\ all_chars is_id_char (fst (take_id s)) = true
  /\ forall c r, snd (take_id s) = String c r -> is_id_char c = false.
Proof.
  induction s as [|c s (E & A & N)]; simpl.
  - repeat split. discriminate.
  - destruct (is_id_char c) eqn:Hc.
    + destruct (take_id s) as [id rest]. cbn [fst snd all_chars] in *.
      rewrite append_cons. split; [now f_equal|]. split; [now rewrite Hc|exact N].
    + simpl. repeat split. intros c' r [= <- _]. exact Hc.
Qed.

Lemma take_id_app id rest :
  all_chars is_id_char id = true ->
  (forall c r, rest = String c r -> is_id_char c = false) ->
  take_id (id ++ rest) = (id, rest).
Proof.
  intros A N. induction id as [|c id IH]; simpl in *.
  - destruct rest as [|c r]; [reflexivity|].
    simpl. now rewrite (N c r eq_refl).
  - apply andb_true_iff in A as [Hc A]. rewrite Hc, (IH A). reflexivity.
Qed.

Lemma search_skip c r :
  match_sheet_id (String c r) = None ->
  search_sheet_id (String c r) = search_sheet_id r.
Proof. intros H. cbn [search_sheet_id]. now rewrite H. Qed.

Lemma search_hit s id :
  match_sheet_id s = Some id -> search_sheet_id s = Some id.
Proof. intros H. destruct s; cbn [search_sheet_id]; now rewrite H. Qed.

Lemma match_sheet_id_sound s id :
  match_sheet_id s = Some id ->
  id <> EmptyString /\ all_chars is_id_char id = true
  /\ exists post, s = "/d/" ++ id ++ post.
Proof.
  unfold match_sheet_id.
  destruct s as [|c1 [|c2 [|c3 r]]]; try discriminate;
    try (destruct c1 as [[] [] [] [] [] [] [] []]; discriminate).
  - destruct c1 as [[] [] [] [] [] [] [] []]; try discriminate;
    destruct c2 as [[] [] [] [] [] [] [] []]; discriminate.
  - destruct c1 as [[] [] [] [] [] [] [] []]; try discriminate;
    destruct c2 as [[] [] [] [] [] [] [] []]; try discriminate;
    destruct c3 as [[] [] [] [] [] [] [] []]; try discriminate.
    destruct (take_id_spec r) as (E & A & _).
    destruct (take_id r) as [i rest]. simpl in *.
    destruct i as [|c i]; [discriminate|]. intros [= <-].
    split; [discriminate|]. split; [exact A|]. exists rest. now rewrite E at 1.
Qed.

Lemma search_sheet_id_sound s id :
  search_sheet_id s = Some id ->
  id <> EmptyString /\ all_chars is_id_char id = true
  /\ exists pre post, s = pre ++ "/d/" ++ id ++ post.
Proof.
  induction s as [|c s IH]; cbn [search_sheet_id].
  - destruct (match_sheet_id EmptyString) eqn:M; [|discriminate].
    intros [= <-]. discriminate M.
  - destruct (match_sheet_id (String c s)) as [i|] eqn:M.
    + intros [= <-]. apply match_sheet_id_sound in M as (N & A & post & E).
      split; [exact N|]. split; [exact A|]. exists EmptyString, post. exact E.
    + intros H. destruct (IH H) as (N & A & pre & post & E).
      split; [exact N|]. split; [exact A|]. exists (String c pre), post.
      simpl. now rewrite E.
Qed.

Lemma search_in_export_prefix tail :
  search_sheet_id (export_prefix ++ tail) = search_sheet_id ("/d/" ++ tail).
Proof.
  unfold export_prefix. rewrite !append_cons, append_nil.
  do 36 (rewrite search_skip by reflexivity). reflexivity.
Qed.

(** X11. For an address of Google Sheets that holds the id of a sheet
    after [/d/], whatever follows the id, the address requested is the
    export of that sheet as a workbook. *)
Theorem export_url_of_a_sheet_address id rest :
  id <> EmptyString -> all_chars is_id_char id = true ->
  (forall c r, rest = String c r -> is_id_char c = false) ->
  export_url (export_prefix ++ id ++ rest) = Some (export_prefix ++ id ++ export_suffix).
Proof.
  intros N A R. unfold export_url.
  assert (C : contains_str "docs.google.com/spreadsheets" (export_prefix ++ id ++ rest) = true).
  { apply contains_str_spec. exists "https://", ("/d/" ++ id ++ rest). reflexivity. }
  rewrite C, search_in_export_prefix.
  erewrite search_hit; [reflexivity|].
  rewrite !append_cons, append_nil. cbn [match_sheet_id].
  rewrite (take_id_app id rest A R).
  destruct id; [contradiction|reflexivity].
Qed.

(** X12. An address is requested only for a text that holds the host and
    path of Google Sheets and an id after [/d/]; it is the export
    address of that id, and is its own export address. *)
Theorem export_url_sound url address :
  export_url url = Some address ->
  (exists id pre post,
      address = export_prefix ++ id ++ export_suffix
      /\ id <> EmptyString /\ all_chars is_id_char id = true
      /\ url = pre ++ "/d/" ++ id ++ post)
  /\ (exists pre post, url = pre ++ "docs.google.com/spreadsheets" ++ post)
  /\ export_url address = Some address.
Proof.
  unfold export_url.
  destruct (contains_str _ url) eqn:C; [|discriminate].
  destruct (search_sheet_id url) as [id|] eqn:Se; [|discriminate].
  intros [= <-].
  destruct (search_sheet_id_sound url id Se) as (N & A & pre & post & E).
  split; [exists id, pre, post; auto|]. split; [now apply contains_str_spec|].
  apply export_url_of_a_sheet_address; auto.
  intros c r [= <- _]. reflexivity.
Qed.

Section WithSink.
Context {S : Type}.
Variable send : S -> Z -> Formatter.Embed -> S * bool.
Variable hash : string -> Z.

(** X13. Without an address, or with one that is no address of Google
    Sheets or holds no sheet id, nothing is downloaded whatever the
    network answers, and a tick sends nothing and changes nothing. *)
Theorem other_addresses_are_never_fetched get read_excel url clock chans (st : State S) :
  url = None
  \/ (exists u, url = Some u /\ contains_str "docs.google.com/spreadsheets" u = false)
  \/ (exists u, url = Some u /\ search_sheet_id u = None) ->
  download_google_sheet get url = None
  /\ check_events send hash (mkenv clock chans (fetch get read_excel url)) st
     = mktick st []
         (match channel_id st with
          | None => NoChannelSet
          | Some c => if chans c then DownloadFailed else ChannelNotFound
          end).
Proof.
  intros H.
  assert (D : download_google_sheet get url = None).
  { destruct H as [->|[(u & -> & C)|(u & -> & Se)]]; [reflexivity| |];
      unfold download_google_sheet, export_url.
    - now rewrite C.
    - rewrite Se. now destruct (contains_str _ u). }
  split; [exact D|].
  unfold check_events, fetch. cbn [fetched get_channel]. rewrite D.
  destruct (channel_id st) as [c|]; [|reflexivity].
  now destruct (chans c).
Qed.

End WithSink.
Lemma export_url_of_a_sheet_address_example :
  export_url sharing_link = Some (export_prefix ++ sheet_id ++ export_suffix).
Proof.
  apply (export_url_of_a_sheet_address sheet_id "/edit#gid=0").
  - discriminate.
  - reflexivity.
  - intros c r [= <- _]. reflexivity.
Defined.

Lemma export_url_sound_example :
  export_url (export_prefix ++ sheet_id ++ export_suffix)
  = Some (export_prefix ++ sheet_id ++ export_suffix).
Proof.
  refine (proj2 (proj2 (export_url_sound sharing_link
                          (export_prefix ++ sheet_id ++ export_suffix) _))).
  reflexivity.
Defined.

Lemma other_addresses_are_never_fetched_example :
  download_google_sheet (serving "workbook") (Some "events.xlsx") = None.
Proof.
  refine (proj1 (other_addresses_are_never_fetched accepting length_hash
                   (serving "workbook") (fun _ => Some march_frame)
                   (Some "events.xlsx") monday_morning (fun _ => true)
                   (on_channel 7 tt) _)).
  right. left. exists "events.xlsx". split; reflexivity.
Defined.

End SheetFacts.

(** ** More on the row parser *)
Module ParserMore.
Import PyStr PyDate Parser Wording Notions TextFacts StampFacts Samples Cases.

Lemma by_label_in (l : list (string * Cell)) label c :
  List.NoDup (map fst l) -> In (label, c) l ->
  by_label (map fst l) (map snd l) label = Some c.
Proof.
  unfold by_label. induction l as [|[k v] l IH]; intros N H; [destruct H|].
  cbn [map fst snd position]. inversion N as [|? ? Hk N']; subst.
  destruct (String.eqb_spec k label) as [->|Hne].
  - destruct H as [[= ->]|H]; [reflexivity|].
    exfalso. apply Hk. apply in_map_iff. now exists (label, c).
  - destruct H as [[= E]|H]; [congruence|].
    specialize (IH N' H).
    destruct (position label (map fst l)) as [i|]; [|discriminate]. exact IH.
Qed.

Lemma has_column_in (l : list (string * Cell)) label c :
  In (label, c) l -> has_column label (map fst l) = true.
Proof.
  unfold has_column. induction l as [|[k v] l IH]; intros H; [destruct H|].
  cbn [map fst position].
  destruct (String.eqb_spec k label) as [->|Hne]; [reflexivity|].
  destruct H as [[= E]|H]; [congruence|].
  specialize (IH H). now destruct (position label (map fst l)).
Qed.

(** X2. When the frame has a column named "Date" and a column named
    "content", the cells under these names are taken, wherever the two
    columns stand. *)
Theorem named_columns_are_found_anywhere (l : list (string * Cell)) (dv cc : Cell) :
  List.NoDup (map fst l) ->
  In ("Date", dv) l -> In ("content", cc) l ->
  select_cells (map fst l) (map snd l) = Some (dv, cc).
Proof.
  intros N Hd Hc. unfold select_cells.
  rewrite (has_column_in l _ _ Hd), (has_column_in l _ _ Hc). cbn [andb].
  now rewrite (by_label_in l _ _ N Hd), (by_label_in l _ _ N Hc).
Qed.

Lemma contains_all_chars p c s :
  all_chars p s = true -> p c = false -> contains c s = false.
Proof.
  intros A Hc. induction s as [|c' s IH]; [reflexivity|].
  simpl in *. apply andb_true_iff in A as [Hc' A].
  rewrite (IH A), orb_false_r.
  destruct (Ascii.eqb_spec c' c) as [->|]; [congruence|reflexivity].
Qed.

Lemma uint_digits d : all_chars is_digit (NilEmpty.string_of_uint d) = true.
Proof. induction d; simpl; auto. Qed.

Lemma nat_digits d : all_chars is_digit (NilZero.string_of_uint d) = true.
Proof. destruct d; try apply uint_digits. reflexivity. Qed.

Lemma strptime_needs_digit c x : is_digit c = false -> strptime_Ymd (String c x) = None.
Proof.
  intros H. unfold strptime_Ymd.
  destruct x as [|y2 [|y3 [|y4 [|c5 r]]]]; try reflexivity.
  destruct c5 as [[] [] [] [] [] [] [] []]; try reflexivity.
  now rewrite H.
Qed.

(** X5. An integer in the date cell, such as the serial number of a day,
    is never read as a date: the row gives no event. *)
Theorem integer_cells_are_no_dates (hash : string -> Z) (z : Z) (cc : Cell) :
  coerce_date (VInt z) = Unresolved
  /\ forall e, parse_cells hash (Value (VInt z)) cc <> RowAdded e.
Proof.
  assert (U : coerce_date (VInt z) = Unresolved).
  { unfold coerce_date. cbn [str_of_scalar]. unfold str_of_Z.
    destruct z as [|p|p]; try reflexivity; cbn [Z.to_int NilZero.string_of_int].
    - rewrite (contains_all_chars is_digit "/" _ (nat_digits _) eq_refl).
      now rewrite (contains_all_chars is_digit "-" _ (nat_digits _) eq_refl).
    - cbn [contains]. change (Ascii.eqb "-" "/") with false. cbn [orb].
      rewrite (contains_all_chars is_digit "/" _ (nat_digits _) eq_refl).
      destruct (_ && _); [|reflexivity].
      unfold dash_date.
      pose proof (PyStrFacts.split_ws_head (String "-" (NilZero.string_of_uint (Pos.to_uint p)))) as H.
      destruct (split_ws _) as [|token rest]; [reflexivity|].
      destruct H as [-> _].
      rewrite PyStrFacts.lstrip_no_space by reflexivity.
      cbn [before_first_space]. change (is_space "-") with false. cbv iota.
      now rewrite strptime_needs_digit. }
  split; [exact U|].
  intros e. unfold parse_cells. rewrite U.
  destruct (_ || _); [discriminate|]. now destruct (String.eqb _ "content").
Qed.

(** X4. A date cell that is a datetime or a Timestamp always resolves,
    to the value it holds, with its time of day; a date read from any
    other cell is a date of the calendar, at midnight. *)
Theorem resolved_text_dates_are_calendar_dates (v : Scalar) (d : datetime) :
  coerce_date (VDatetime d) = Resolved d
  /\ coerce_date (VTimestamp d) = Resolved d
  /\ (coerce_date v = Resolved d ->
      match v with
      | VDatetime d' | VTimestamp d' => d = d'
      | _ => valid_date (year d) (month d) (day d) = true
             /\ hour d = 0%Z /\ minute d = 0%Z /\ second d = 0%Z
      end).
Proof.
  split; [reflexivity|split; [reflexivity|]].
  assert (T : forall s,
             (if contains "/" s then slash_date s
              else if contains "-" s && negb (contains "T" s) then dash_date s
                   else Unresolved) = Resolved d ->
             valid_date (year d) (month d) (day d) = true
             /\ hour d = 0%Z /\ minute d = 0%Z /\ second d = 0%Z).
  { intros s. destruct (contains "/" s).
    - unfold slash_date.
      destruct (split "/" s) as [|p1 [|p2 [|p3 [|p4 ps]]]]; try discriminate.
      destruct (int _); [|discriminate]. destruct (int p2); [|discriminate].
      destruct (int p1); [|discriminate].
      destruct (datetime_new z z0 z1) eqn:N; [|discriminate].
      intros [= <-]. now apply ParserFacts.datetime_new_midnight in N.
    - destruct (_ && _); [|discriminate]. unfold dash_date.
      destruct (split_ws s) as [|token rest]; [discriminate|].
      destruct (strptime_Ymd token) eqn:P; [|discriminate].
      intros [= <-]. now apply ParserFacts.strptime_Ymd_midnight in P. }
  destruct v; cbn [coerce_date]; try apply T; now intros [= <-].
Qed.

Section WithHash.
Variable hash : string -> Z.

(** X1. A first row whose first cell reads "date" in any case is
    dropped, whatever the named cells of the row hold; the test is made
    on row 0 only. *)
Theorem header_row_is_dropped (cols : list string) (row : list Cell)
        (rest : list (list Cell)) :
  lower (str_of_cell (first_cell row)) = "date" ->
  parse_event_data hash (mkframe cols (row :: rest)) = parse_rows hash cols 1 rest
  /\ forall k, is_header_row (S k) row = false.
Proof.
  intros H. split; [|reflexivity].
  unfold parse_event_data. cbn [columns rows parse_rows].
  unfold parse_row, is_header_row. rewrite H.
  cbn [Nat.eqb andb]. rewrite orb_true_r. reflexivity.
Qed.

Lemma parse_rows_origin cols k rs e :
  In e (parse_rows hash cols k rs) ->
  exists i row, nth_error rs i = Some row
                /\ parse_row hash cols (k + i) row = RowAdded e.
Proof.
  revert k. induction rs as [|row rs IH]; intros k; cbn [parse_rows]; [intros []|].
  rewrite in_app_iff. intros [H|H].
  - exists 0%nat, row. rewrite Nat.add_0_r. split; [reflexivity|].
    destruct (parse_row hash cols k row); simpl in H; try tauto.
    destruct H as [<-|[]]. reflexivity.
  - destruct (IH _ H) as (i & r & Hn & Hp).
    exists (S i), r. split; [exact Hn|]. now rewrite Nat.add_succ_r.
Qed.

(** X3. Every event of the output comes from a row of the frame whose
    date cell is not missing and resolves to the date of the event; its
    content is the text of the content cell, and is neither empty, nor
    "nan", nor the word "content". *)
Theorem parsed_events_are_well_formed (df : DataFrame) (e : Event) :
  In e (parse_event_data hash df) ->
  exists i row v cc,
    nth_error (rows df) i = Some row
    /\ select_cells (columns df) row = Some (Value v, cc)
    /\ coerce_date v = Resolved (date e)
    /\ content e = content_text cc
    /\ content e <> EmptyString /\ content e <> "nan"
    /\ lower (content e) <> "content".
Proof.
  intros H. apply parse_rows_origin in H as (i & row & Hn & Hp).
  exists i, row. unfold parse_row in Hp.
  destruct (is_header_row _ row); [discriminate|].
  destruct (select_cells (columns df) row) as [[dv cc]|]; [|discriminate].
  unfold parse_cells in Hp. destruct dv as [k|v]; [discriminate|].
  exists v, cc.
  destruct (String.eqb_spec (content_text cc) "") as [|N1]; [discriminate|].
  destruct (String.eqb_spec (content_text cc) "nan") as [|N2]; [discriminate|].
  cbn [orb] in Hp.
  destruct (String.eqb_spec (lower (content_text cc)) "content") as [|N3]; [discriminate|].
  destruct (coerce_date v) as [d| |]; try discriminate.
  injection Hp as <-. cbn [date content make_event]. auto 8.
Qed.


End WithHash.

Local Open Scope Z_scope.

(** X6. Two events of the parser, on dates of the calendar, have the same
    id exactly when they have the same calendar date and their contents
    have the same hash. *)
Theorem equal_ids_mean_equal_day_and_hash (hash : string -> Z)
        (df1 df2 : DataFrame) (e1 e2 : Event) :
  In e1 (parse_event_data hash df1) -> In e2 (parse_event_data hash df2) ->
  valid_date (year (date e1)) (month (date e1)) (day (date e1)) = true ->
  valid_date (year (date e2)) (month (date e2)) (day (date e2)) = true ->
  unique_id e1 = unique_id e2 <->
  to_date (date e1) = to_date (date e2) /\ hash (content e1) = hash (content e2).
Proof.
  intros H1 H2 V1 V2.
  apply ParserFacts.parse_rows_event in H1 as (d1 & c1 & ->).
  apply ParserFacts.parse_rows_event in H2 as (d2 & c2 & ->).
  cbn [date content unique_id make_event] in *. split.
  - intros E. rewrite !append_cons, !append_nil in E.
    apply stamp_inj in E as [Ed E]; try assumption.
    split; [exact Ed|]. now apply str_of_Z_inj.
  - intros [Ed Eh]. now rewrite (ParserFacts.strftime_Ymd_date _ _ Ed), Eh.
Qed.

Lemma header_row_is_dropped_example :
  parse_event_data length_hash (mkframe ["Date"; "content"] headed_rows)
  = parse_rows length_hash ["Date"; "content"] 1 (tail headed_rows).
Proof.
  exact (proj1 (header_row_is_dropped length_hash ["Date"; "content"]
                  [Value (VStr "DATE"); Value (VStr "Content")]
                  [[Value (VStr "05/03/24"); Value (VStr "Launch Party")]] eq_refl)).
Defined.

Lemma named_columns_are_found_anywhere_example :
  select_cells (map fst labelled_row) (map snd labelled_row)
  = Some (Value (VStr "05/03/24"), Value (VStr "Launch Party")).
Proof.
  apply (named_columns_are_found_anywhere labelled_row).
  - repeat (constructor; [simpl; intuition discriminate|]). constructor.
  - simpl. tauto.
  - simpl. tauto.
Defined.

Lemma parsed_events_are_well_formed_example : content launch <> EmptyString.
Proof.
  destruct (parsed_events_are_well_formed length_hash march_frame launch)
    as (i & row & v & cc & _ & _ & _ & _ & H & _).
  - vm_compute. left. reflexivity.
  - exact H.
Defined.

Lemma resolved_text_dates_are_calendar_dates_example :
  valid_date 2024 3 5 = true.
Proof.
  exact (proj1 (proj2 (proj2 (resolved_text_dates_are_calendar_dates (VStr "05/03/24")
                                (mkdatetime 2024 3 5 0 0 0))) eq_refl)).
Defined.

Lemma integer_cells_are_no_dates_example : coerce_date (VInt 45356) = Unresolved.
Proof.
  exact (proj1 (integer_cells_are_no_dates length_hash 45356 (Value (VStr "Launch Party")))).
Defined.

Lemma equal_ids_mean_equal_day_and_hash_example :
  unique_id launch = unique_id launch <->
  to_date (date launch) = to_date (date launch)
  /\ length_hash (content launch) = length_hash (content launch).
Proof.
  apply (equal_ids_mean_equal_day_and_hash length_hash march_frame march_frame).
  - vm_compute. left. reflexivity.
  - vm_compute. left. reflexivity.
  - reflexivity.
  - reflexivity.
Defined.

End ParserMore.

(** ** More on the message formatter *)
Module FormatterMore.
Import PyStr PyDate Parser Formatter Wording Notions TextFacts Samples Cases.

Lemma take_hour_spec s m r :
  take_hour s = Some (m, r) ->
  s = m ++ r /\ exists c m', m = String c m' /\ is_digit c = true.
Proof.
  unfold take_hour. destruct s as [|a [|b s]]; try discriminate.
  destruct (is_digit a) eqn:Ha; [|discriminate].
  destruct (is_digit b).
  - destruct s as [|c s]; [discriminate|].
    destruct c as [[] [] [] [] [] [] [] []]; try discriminate.
    intros [= <- <-]. split; [reflexivity|eauto].
  - destruct (Ascii.eqb_spec b ":") as [->|]; [|discriminate].
    intros [= <- <-]. split; [reflexivity|eauto].
Qed.

Lemma take_minutes_spec s m r : take_minutes s = Some (m, r) -> s = m ++ r.
Proof.
  unfold take_minutes. destruct s as [|a [|b s]]; try discriminate.
  destruct (_ && _); [|discriminate]. now intros [= <- <-].
Qed.

Lemma take_char_spec c s m r : take_char c s = Some (m, r) -> s = m ++ r.
Proof.
  unfold take_char. destruct s as [|a s]; [discriminate|].
  destruct (Ascii.eqb_spec a c) as [->|]; [|discriminate]. now intros [= <- <-].
Qed.

Lemma take_spaces_spec s : s = fst (take_spaces s) ++ snd (take_spaces s).
Proof.
  induction s as [|c s IH]; [reflexivity|]. cbn [take_spaces].
  destruct (is_space c); [|reflexivity].
  destruct (take_spaces s) as [sp rest]. cbn [fst snd] in *.
  now rewrite append_cons, <- IH.
Qed.

Lemma take_meridiem_spec s m r :
  take_meridiem s = Some (m, r) -> s = m ++ r /\ (m = "AM" \/ m = "PM").
Proof.
  unfold take_meridiem. destruct s as [|a [|b s]]; try discriminate.
  destruct b as [[] [] [] [] [] [] [] []]; try discriminate.
  destruct (Ascii.eqb_spec a "A") as [->|]; [intros [= <- <-]; auto|].
  destruct (Ascii.eqb_spec a "P") as [->|]; [intros [= <- <-]; auto|].
  discriminate.
Qed.

Lemma match_time_spec s t :
  match_time s = Some t ->
  (exists post, s = t ++ post)
  /\ (exists c r, t = String c r /\ is_digit c = true)
  /\ (exists body, t = body ++ "AM" \/ t = body ++ "PM").
Proof.
  unfold match_time.
  destruct (take_hour s) as [[h1 s1]|] eqn:H1; [|discriminate].
  destruct (take_minutes s1) as [[m1 s2]|] eqn:M1; [|discriminate].
  destruct (take_char "-" s2) as [[dash s3]|] eqn:D; [|discriminate].
  destruct (take_hour s3) as [[h2 s4]|] eqn:H2; [|discriminate].
  destruct (take_minutes s4) as [[m2 s5]|] eqn:M2; [|discriminate].
  pose proof (take_spaces_spec s5) as Sp.
  destruct (take_spaces s5) as [sp s6]. cbn [fst snd] in Sp.
  destruct (take_meridiem s6) as [[mer s7]|] eqn:Me; [|discriminate].
  intros [= <-].
  apply take_hour_spec in H1 as (E1 & c & h1' & -> & Hc).
  apply take_minutes_spec in M1. apply take_char_spec in D.
  apply take_hour_spec in H2 as (E2 & _). apply take_minutes_spec in M2.
  apply take_meridiem_spec in Me as (E7 & Hmer).
  split; [|split].
  - exists s7. subst. now rewrite !append_assoc.
  - exists c, (h1' ++ m1 ++ dash ++ h2 ++ m2 ++ sp ++ mer). split; [|exact Hc].
    now rewrite append_cons.
  - exists (String c h1' ++ m1 ++ dash ++ h2 ++ m2 ++ sp).
    rewrite !append_assoc. destruct Hmer as [->| ->]; auto.
Qed.

Lemma search_time_spec s t :
  search_time s = Some t ->
  (exists pre post, s = pre ++ t ++ post)
  /\ (exists c r, t = String c r /\ is_digit c = true)
  /\ (exists body, t = body ++ "AM" \/ t = body ++ "PM").
Proof.
  induction s as [|c s IH]; cbn [search_time].
  - destruct (match_time EmptyString) eqn:M; [discriminate M|discriminate].
  - destruct (match_time (String c s)) as [m|] eqn:M.
    + intros [= <-]. apply match_time_spec in M as ((post & E) & Hd & Hm).
      split; [|now split]. exists EmptyString, post. exact E.
    + intros H. destruct (IH H) as ((pre & post & E) & Hd & Hm).
      split; [|now split]. exists (String c pre), post. now rewrite append_cons, E.
Qed.

Lemma time_field clock ev :
  field_value "⏰ Time" (format_event_message clock ev) = search_time (content ev).
Proof.
  unfold field_value, format_event_message. cbn [fields].
  destruct (contains_str "Jakarta, Indonesia" (content ev));
    destruct (search_time (content ev));
    destruct (collect_details (tail (split newline (content ev)))); reflexivity.
Qed.

Lemma location_field clock ev :
  field_value "📍 Location" (format_event_message clock ev)
  = if contains_str "Jakarta, Indonesia" (content ev)
    then Some "Jakarta, Indonesia" else None.
Proof.
  unfold field_value, format_event_message. cbn [fields].
  destruct (contains_str "Jakarta, Indonesia" (content ev));
    destruct (search_time (content ev));
    destruct (collect_details (tail (split newline (content ev)))); reflexivity.
Qed.

Lemma details_field clock ev :
  field_value "ℹ️ Details" (format_event_message clock ev)
  = match details_of (content ev) with
    | [] => None
    | details => Some (join nl (firstn 5 details))
    end.
Proof.
  unfold field_value, format_event_message, details_of. cbn [fields].
  destruct (contains_str "Jakarta, Indonesia" (content ev));
    destruct (search_time (content ev));
    destruct (collect_details (tail (split newline (content ev)))); reflexivity.
Qed.

(** X7. The time that the embed shows is a piece of the content, word for
    word; it starts with a digit and ends with AM or PM. *)
Theorem time_is_cut_from_the_content clock ev t :
  field_value "⏰ Time" (format_event_message clock ev) = Some t ->
  (exists pre post, content ev = pre ++ t ++ post)
  /\ (exists c r, t = String c r /\ is_digit c = true)
  /\ (exists body, t = body ++ "AM" \/ t = body ++ "PM").
Proof. rewrite time_field. apply search_time_spec. Qed.

(** X8. The location field is shown, with its one value, exactly when
    the content holds the text "Jakarta, Indonesia". *)
Theorem location_is_shown_for_the_literal clock ev :
  (field_value "📍 Location" (format_event_message clock ev) = Some "Jakarta, Indonesia"
   <-> exists pre post, content ev = pre ++ "Jakarta, Indonesia" ++ post)
  /\ (field_value "📍 Location" (format_event_message clock ev) = None
      <-> ~ exists pre post, content ev = pre ++ "Jakarta, Indonesia" ++ post).
Proof.
  rewrite location_field, <- contains_str_spec.
  destruct (contains_str "Jakarta, Indonesia" (content ev)); split; split;
    try discriminate; try reflexivity; congruence.
Qed.

Lemma collect_details_in d ls :
  In d (collect_details ls) -> exists line, In line ls /\ is_detail line = true /\ d = strip line.
Proof.
  induction ls as [|l ls IH]; cbn [collect_details]; [intros []|].
  destruct (is_detail l) eqn:D.
  - intros [<-|H]; [exists l; repeat split; auto; now left|].
    destruct (IH H) as (line & ? & ? & ?). exists line. repeat split; auto. now right.
  - intros H. destruct (IH H) as (line & ? & ? & ?). exists line. repeat split; auto. now right.
Qed.

Lemma in_firstn {A} (x : A) n l : In x (firstn n l) -> In x l.
Proof. intros H. rewrite <- (firstn_skipn n l). apply in_or_app. now left. Qed.

(** X9. Each of the details that are shown has no space at either end,
    is not empty and holds no line feed; there are five at most. *)
Theorem details_shown_are_trimmed content d :
  In d (firstn 5 (details_of content)) ->
  strip d = d /\ d <> EmptyString /\ contains newline d = false
  /\ (length (firstn 5 (details_of content)) <= 5)%nat.
Proof.
  intros H. assert (L : (length (firstn 5 (details_of content)) <= 5)%nat)
    by apply firstn_le_length.
  apply in_firstn in H. unfold details_of in H.
  apply collect_details_in in H as (line & Hin & Hd & ->).
  split; [apply strip_idem|]. split; [|split; [|exact L]].
  - unfold is_detail in Hd. apply andb_true_iff in Hd as [Hd _].
    apply negb_true_iff in Hd. intros E. rewrite E in Hd. discriminate.
  - destruct (contains newline (strip line)) eqn:C; [|reflexivity].
    apply contains_strip in C.
    assert (Hin' : In line (split newline content)).
    { destruct (split newline content); [destruct Hin|now right]. }
    now rewrite (split_parts_have_no_sep _ _ _ Hin') in C.
Qed.

Lemma collect_all lines :
  Forall (fun l => is_detail l = true /\ strip l = l) lines ->
  collect_details lines = lines.
Proof.
  induction 1 as [|l ls [Hd Hs] _ IH]; [reflexivity|].
  cbn [collect_details]. now rewrite Hd, Hs, IH.
Qed.

(** X10. For a content whose lines after the first are at most five, none
    blank, none starting with a hyphen and none with a space at either
    end, the title is the first line and the details are the rest of
    the content, unchanged. *)
Theorem plain_body_is_shown_as_it_is clock ev first body :
  content ev = first ++ nl ++ body ->
  contains newline first = false ->
  Forall (fun l => is_detail l = true /\ strip l = l) (split newline body) ->
  (length (split newline body) <= 5)%nat ->
  description (format_event_message clock ev) = "**" ++ first ++ "**"
  /\ field_value "ℹ️ Details" (format_event_message clock ev) = Some body.
Proof.
  intros C N A L.
  assert (Sp : split newline (content ev) = first :: split newline body).
  { rewrite C. unfold nl. rewrite append_cons, append_nil.
    now apply split_first_line. }
  split.
  - unfold format_event_message. cbn [description]. now rewrite Sp.
  - rewrite details_field. unfold details_of. rewrite Sp. cbn [tail].
    rewrite (collect_all _ A).
    pose proof (PyStrFacts.split_not_nil newline body) as Hn.
    destruct (split newline body) as [|l ls] eqn:E; [contradiction|].
    rewrite firstn_all2 by exact L. rewrite <- E. unfold nl.
    now rewrite join_split.
Qed.

Lemma time_is_cut_from_the_content_example :
  exists pre post, content launch_event = pre ++ "9:00-11:00 AM" ++ post.
Proof.
  exact (proj1 (time_is_cut_from_the_content monday_morning launch_event
                  "9:00-11:00 AM" eq_refl)).
Defined.

Lemma location_is_shown_for_the_literal_example :
  field_value "📍 Location" (format_event_message monday_morning launch_event)
  = Some "Jakarta, Indonesia"
  <-> exists pre post, content launch_event = pre ++ "Jakarta, Indonesia" ++ post.
Proof.
  exact (proj1 (location_is_shown_for_the_literal monday_morning launch_event)).
Defined.

Lemma details_shown_are_trimmed_example : strip "More info" = "More info".
Proof.
  refine (proj1 (details_shown_are_trimmed launch_party "More info" _)).
  vm_compute. right. right. left. reflexivity.
Defined.

Lemma plain_body_is_shown_as_it_is_example :
  field_value "ℹ️ Details" (format_event_message monday_morning plain_event)
  = Some ("Doors open at nine" ++ nl ++ "Bring a friend").
Proof.
  refine (proj2 (plain_body_is_shown_as_it_is monday_morning plain_event
                   "Launch Party" ("Doors open at nine" ++ nl ++ "Bring a friend")
                   _ _ _ _)).
  - reflexivity.
  - reflexivity.
  - repeat constructor.
  - vm_compute. lia.
Defined.

End FormatterMore.

(** ** More on dates *)
Module DateMore.
Import PyDate Parser Bot Notions Samples Cases.
Local Open Scope Z_scope.

Lemma days_before_year_mono a b : a <= b -> days_before_year a <= days_before_year b.
Proof.
  intros H. unfold days_before_year.
  Z.to_euclidean_division_equations. lia.
Qed.

Lemma days_before_month_table y :
  days_before_month y 1 = 0 /\
  days_before_month y 2 = 31 /\
  days_before_month y 3 = 59 + leap_day y /\
  days_before_month y 4 = 90 + leap_day y /\
  days_before_month y 5 = 120 + leap_day y /\
  days_before_month y 6 = 151 + leap_day y /\
  days_before_month y 7 = 181 + leap_day y /\
  days_before_month y 8 = 212 + leap_day y /\
  days_before_month y 9 = 243 + leap_day y /\
  days_before_month y 10 = 273 + leap_day y /\
  days_before_month y 11 = 304 + leap_day y /\
  days_before_month y 12 = 334 + leap_day y.
Proof.
  assert (M1 : days_before_month y 1 = 0) by reflexivity.
  assert (M2 : days_before_month y 2 = 31).
  { change 2 with (1 + 1). rewrite PyDateFacts.days_before_next_month by lia.
    rewrite M1. unfold leap_day. cbn [days_in_month]. destruct (is_leap y); lia. }
  assert (M3 : days_before_month y 3 = 59 + leap_day y).
  { change 3 with (2 + 1). rewrite PyDateFacts.days_before_next_month by lia.
    rewrite M2. unfold leap_day. cbn [days_in_month]. destruct (is_leap y); lia. }
  assert (M4 : days_before_month y 4 = 90 + leap_day y).
  { change 4 with (3 + 1). rewrite PyDateFacts.days_before_next_month by lia.
    rewrite M3. unfold leap_day. cbn [days_in_month]. destruct (is_leap y); lia. }
  assert (M5 : days_before_month y 5 = 120 + leap_day y).
  { change 5 with (4 + 1). rewrite PyDateFacts.days_before_next_month by lia.
    rewrite M4. unfold leap_day. cbn [days_in_month]. destruct (is_leap y); lia. }
  assert (M6 : days_before_month y 6 = 151 + leap_day y).
  { change 6 with (5 + 1). rewrite PyDateFacts.days_before_next_month by lia.
    rewrite M5. unfold leap_day. cbn [days_in_month]. destruct (is_leap y); lia. }
  assert (M7 : days_before_month y 7 = 181 + leap_day y).
  { change 7 with (6 + 1). rewrite PyDateFacts.days_before_next_month by lia.
    rewrite M6. unfold leap_day. cbn [days_in_month]. destruct (is_leap y); lia. }
  assert (M8 : days_before_month y 8 = 212 + leap_day y).
  { change 8 with (7 + 1). rewrite PyDateFacts.days_before_next_month by lia.
    rewrite M7. unfold leap_day. cbn [days_in_month]. destruct (is_leap y); lia. }
  assert (M9 : days_before_month y 9 = 243 + leap_day y).
  { change 9 with (8 + 1). rewrite PyDateFacts.days_before_next_month by lia.
    rewrite M8. unfold leap_day. cbn [days_in_month]. destruct (is_leap y); lia. }
  assert (M10 : days_before_month y 10 = 273 + leap_day y).
  { change 10 with (9 + 1). rewrite PyDateFacts.days_before_next_month by lia.
    rewrite M9. unfold leap_day. cbn [days_in_month]. destruct (is_leap y); lia. }
  assert (M11 : days_before_month y 11 = 304 + leap_day y).
  { change 11 with (10 + 1). rewrite PyDateFacts.days_before_next_month by lia.
    rewrite M10. unfold leap_day. cbn [days_in_month]. destruct (is_leap y); lia. }
  assert (M12 : days_before_month y 12 = 334 + leap_day y).
  { change 12 with (11 + 1). rewrite PyDateFacts.days_before_next_month by lia.
    rewrite M11. unfold leap_day. cbn [days_in_month]. destruct (is_leap y); lia. }
  repeat split; assumption.
Qed.

Lemma day_of_year_bounds y m d :
  valid_date y m d = true ->
  1 <= days_before_month y m + d <= 365 + leap_day y.
Proof.
  unfold valid_date, MINYEAR, MAXYEAR. intros V.
  repeat (apply andb_true_iff in V as [V ?]). rewrite ?Z.leb_le in *.
  destruct (days_before_month_table y)
    as (M1 & M2 & M3 & M4 & M5 & M6 & M7 & M8 & M9 & M10 & M11 & M12).
  assert (C : m = 1 \/ m = 2 \/ m = 3 \/ m = 4 \/ m = 5 \/ m = 6 \/ m = 7 \/ m = 8
              \/ m = 9 \/ m = 10 \/ m = 11 \/ m = 12) by lia.
  unfold leap_day in *.
  repeat (destruct C as [C|C];
          [subst m; cbn [days_in_month] in *; destruct (is_leap y); lia|]).
  subst m; cbn [days_in_month] in *; destruct (is_leap y); lia.
Qed.

Lemma day_of_year_inj y m1 d1 m2 d2 :
  valid_date y m1 d1 = true -> valid_date y m2 d2 = true ->
  days_before_month y m1 + d1 = days_before_month y m2 + d2 ->
  m1 = m2 /\ d1 = d2.
Proof.
  unfold valid_date, MINYEAR, MAXYEAR. intros V1 V2.
  repeat (apply andb_true_iff in V1 as [V1 ?]).
  repeat (apply andb_true_iff in V2 as [V2 ?]). rewrite ?Z.leb_le in *.
  destruct (days_before_month_table y)
    as (M1 & M2 & M3 & M4 & M5 & M6 & M7 & M8 & M9 & M10 & M11 & M12).
  assert (C1 : m1 = 1 \/ m1 = 2 \/ m1 = 3 \/ m1 = 4 \/ m1 = 5 \/ m1 = 6 \/ m1 = 7
               \/ m1 = 8 \/ m1 = 9 \/ m1 = 10 \/ m1 = 11 \/ m1 = 12) by lia.
  assert (C2 : m2 = 1 \/ m2 = 2 \/ m2 = 3 \/ m2 = 4 \/ m2 = 5 \/ m2 = 6 \/ m2 = 7
               \/ m2 = 8 \/ m2 = 9 \/ m2 = 10 \/ m2 = 11 \/ m2 = 12) by lia.
  unfold leap_day in *.
  repeat (destruct C1 as [C1|C1]; [subst m1|]); try subst m1;
    repeat (destruct C2 as [C2|C2]; [subst m2|]); try subst m2;
    cbn [days_in_month] in *; destruct (is_leap y); lia.
Qed.

Lemma toordinal_inj d1 d2 :
  valid_date (dyear d1) (dmonth d1) (dday d1) = true ->
  valid_date (dyear d2) (dmonth d2) (dday d2) = true ->
  toordinal d1 = toordinal d2 -> d1 = d2.
Proof.
  destruct d1 as [y1 m1 a1], d2 as [y2 m2 a2]. unfold toordinal.
  cbn [dyear dmonth dday]. intros V1 V2 E.
  pose proof (day_of_year_bounds _ _ _ V1) as B1.
  pose proof (day_of_year_bounds _ _ _ V2) as B2.
  assert (Y : y1 = y2).
  { destruct (Z.lt_trichotomy y1 y2) as [L|[L|L]]; [|exact L|]; exfalso.
    - pose proof (days_before_year_mono (y1 + 1) y2 ltac:(lia)) as Mn.
      rewrite PyDateFacts.days_before_next_year in Mn.
      unfold leap_day in *. destruct (is_leap y1); destruct (is_leap y2); lia.
    - pose proof (days_before_year_mono (y2 + 1) y1 ltac:(lia)) as Mn.
      rewrite PyDateFacts.days_before_next_year in Mn.
      unfold leap_day in *. destruct (is_leap y2); destruct (is_leap y1); lia. }
  subst y2.
  destruct (day_of_year_inj y1 m1 a1 m2 a2 V1 V2 ltac:(lia)) as [-> ->].
  reflexivity.
Qed.



End DateMore.

(** ** More on the check and the commands *)
Module BotMore.
Import PyStr PyDate Parser Formatter Bot Run Samples Cases.

Section WithSink.
Context {S : Type}.
Variable send : S -> Z -> Embed -> S * bool.

Implicit Types (st : State S) (events : list Event) (e ev : Event).

Lemma announce_ends cid clock tm events st :
  ended (announce send cid clock tm events st) = Completed
  \/ exists e, ended (announce send cid clock tm events st) = SendFailed e.
Proof.
  revert st. induction events as [|ev rest IH]; intros st; simpl; [now left|].
  case_bool_decide; [|apply IH].
  case_bool_decide; [apply IH|].
  destruct (send (sink st) cid (format_event_message clock ev)) as [s' [|]]; simpl.
  - apply IH.
  - right. eauto.
Qed.

Lemma announce_sent_spec cid clock tm events st d :
  In d (sent (announce send cid clock tm events st)) ->
  to d = cid /\ In (event d) events /\ to_date (date (event d)) = tm
  /\ (unique_id (event d) ∉ announced_events st)
  /\ message d = format_event_message clock (event d).
Proof.
  revert st. induction events as [|ev rest IH]; intros st; simpl; [tauto|].
  case_bool_decide as Hdate.
  - case_bool_decide as Hknown.
    + intros Hd. destruct (IH st Hd) as (? & ? & ? & ? & ?). auto 6.
    + destruct (send (sink st) cid (format_event_message clock ev)) as [s' [|]]; simpl.
      * intros [<-|Hd]; [simpl; auto 6|].
        destruct (IH _ Hd) as (H1 & H2 & H3 & Hn & H5). simpl in Hn.
        apply not_elem_of_union in Hn as [_ Hn]. auto 6.
      * tauto.
  - intros Hd. destruct (IH st Hd) as (? & ? & ? & ? & ?). auto 6.
Qed.

Lemma announce_set_spec cid clock tm events st :
  announced_events (after (announce send cid clock tm events st))
  = announced_events st ∪ list_to_set (ids_of (sent (announce send cid clock tm events st)))
  /\ NoDup (ids_of (sent (announce send cid clock tm events st))).
Proof.
  revert st. induction events as [|ev rest IH]; intros st; simpl.
  - split; [now rewrite (right_id_L ∅ (∪))|constructor].
  - case_bool_decide as Hdate; [|apply IH].
    case_bool_decide as Hknown; [apply IH|].
    destruct (send (sink st) cid (format_event_message clock ev)) as [s' [|]]; simpl.
    + destruct (IH (add_announced (unique_id ev) (set_sink s' st))) as [E N].
      split.
      * rewrite E. simpl.
        now rewrite (assoc_L (∪) (announced_events st)),
          (comm_L (∪) (announced_events st)).
      * constructor; [|exact N].
        intros Hin. unfold ids_of in Hin. apply list_elem_of_In in Hin.
        apply in_map_iff in Hin as (d & Hid & Hd).
        apply announce_sent_spec in Hd as (_ & _ & _ & Hn & _).
        simpl in Hn. rewrite Hid in Hn.
        apply Hn, elem_of_union_l, elem_of_singleton_2. reflexivity.
    + split; [now rewrite (right_id_L ∅ (∪))|constructor].
Qed.

Lemma announce_order cid clock tm events st :
  map event (sent (announce send cid clock tm events st)) `sublist_of` events.
Proof.
  revert st. induction events as [|ev rest IH]; intros st; simpl; [constructor|].
  case_bool_decide; [|apply sublist_cons, IH].
  case_bool_decide; [apply sublist_cons, IH|].
  destruct (send (sink st) cid (format_event_message clock ev)) as [s' [|]]; simpl.
  - apply sublist_skip, IH.
  - apply sublist_nil_l.
Qed.

Lemma announce_completed_all cid clock tm events st e :
  ended (announce send cid clock tm events st) = Completed ->
  In e events -> to_date (date e) = tm ->
  unique_id e ∈ announced_events (after (announce send cid clock tm events st)).
Proof.
  revert st. induction events as [|ev rest IH]; intros st; simpl; [tauto|].
  case_bool_decide as Hdate.
  - case_bool_decide as Hknown.
    + intros Hend [<-|Hin] Hd; [|now apply IH].
      now apply BotFacts.announce_grows.
    + destruct (send (sink st) cid (format_event_message clock ev)) as [s' [|]]; simpl;
        [|discriminate].
      intros Hend [<-|Hin] Hd; [|now apply IH].
      eapply BotFacts.announce_grows. simpl.
      apply elem_of_union_l, elem_of_singleton_2. reflexivity.
  - intros Hend [<-|Hin] Hd; [contradiction|now apply IH].
Qed.

Lemma announce_nothing_new cid clock tm events st :
  (forall e, In e events -> to_date (date e) = tm -> unique_id e ∈ announced_events st) ->
  announce send cid clock tm events st = mktick st [] Completed.
Proof.
  induction events as [|ev rest IH]; intros Hall; simpl; [reflexivity|].
  case_bool_decide as Hdate.
  - case_bool_decide as Hknown.
    + apply IH. intros e He. apply Hall. now right.
    + exfalso. apply Hknown. apply Hall; [now left|assumption].
  - apply IH. intros e He. apply Hall. now right.
Qed.


Section WithConfig.
Variable hash : string -> Z.
Variable CHECK_INTERVAL : Z.

(** X14. A tick that neither runs to its end nor ends on a failed send
    has sent nothing and has left the whole state as it was. *)
Theorem tick_that_stops_early_changes_nothing env st :
  ended (check_events send hash env st) <> Completed ->
  (forall e, ended (check_events send hash env st) <> SendFailed e) ->
  after (check_events send hash env st) = st
  /\ sent (check_events send hash env st) = [].
Proof.
  unfold check_events, announce_tomorrow.
  destruct (channel_id st) as [cid|]; [|auto].
  destruct (get_channel env cid); [|auto].
  destruct (fetched env) as [| |df]; auto.
  destruct (tomorrow_of (now env)) as [tm|]; [|auto].
  intros H1 H2. exfalso.
  destruct (announce_ends cid (now env) tm (parse_event_data hash df) st) as [E|[e E]].
  - now apply H1.
  - now apply (H2 e).
Qed.

(** X15. Whatever a tick sends goes to the channel that is set, for an
    event of the spreadsheet dated tomorrow whose id the set did not
    hold, as the message formatted from that event. *)
Theorem tick_sends_new_events_of_tomorrow env st d :
  In d (sent (check_events send hash env st)) ->
  exists df tomorrow,
    fetched env = Loaded df /\ tomorrow_of (now env) = Some tomorrow
    /\ channel_id st = Some (to d)
    /\ In (event d) (parse_event_data hash df)
    /\ to_date (date (event d)) = tomorrow
    /\ (unique_id (event d) ∉ announced_events st)
    /\ message d = format_event_message (now env) (event d).
Proof.
  unfold check_events, announce_tomorrow.
  destruct (channel_id st) as [cid|]; [|simpl; tauto].
  destruct (get_channel env cid); [|simpl; tauto].
  destruct (fetched env) as [| |df]; try (simpl; tauto).
  destruct (tomorrow_of (now env)) as [tm|]; [|simpl; tauto].
  intros Hd. apply announce_sent_spec in Hd as (Hto & Hin & Hdate & Hnew & Hmsg).
  exists df, tm. rewrite Hto. auto 8.
Qed.

(** X16. After a tick, however it ended, the set holds what it held and
    the ids of what was sent, no id twice; the channel and the task are
    as before. *)
Theorem tick_adds_what_it_sends env st :
  announced_events (after (check_events send hash env st))
  = announced_events st ∪ list_to_set (ids_of (sent (check_events send hash env st)))
  /\ NoDup (ids_of (sent (check_events send hash env st)))
  /\ channel_id (after (check_events send hash env st)) = channel_id st
  /\ running (after (check_events send hash env st)) = running st.
Proof.
  destruct (BotFacts.check_events_frame send hash env st) as [Hc Hr].
  split; [|split; [|now split]].
  - unfold check_events, announce_tomorrow.
    destruct (channel_id st) as [cid|]; [|simpl; now rewrite (right_id_L ∅ (∪))].
    destruct (get_channel env cid); [|simpl; now rewrite (right_id_L ∅ (∪))].
    destruct (fetched env) as [| |df]; try (simpl; now rewrite (right_id_L ∅ (∪))).
    destruct (tomorrow_of (now env)) as [tm|]; [|simpl; now rewrite (right_id_L ∅ (∪))].
    apply announce_set_spec.
  - unfold check_events, announce_tomorrow.
    destruct (channel_id st) as [cid|]; [|constructor].
    destruct (get_channel env cid); [|constructor].
    destruct (fetched env) as [| |df]; try constructor.
    destruct (tomorrow_of (now env)) as [tm|]; [|constructor].
    apply announce_set_spec.
Qed.

(** X17. The events announced in a tick follow the order of the parser's
    output. *)
Theorem tick_sends_in_sheet_order env st df :
  fetched env = Loaded df ->
  map event (sent (check_events send hash env st))
  `sublist_of` parse_event_data hash df.
Proof.
  intros F. unfold check_events, announce_tomorrow. rewrite F.
  destruct (channel_id st) as [cid|]; [|apply sublist_nil_l].
  destruct (get_channel env cid); [|apply sublist_nil_l].
  destruct (tomorrow_of (now env)) as [tm|]; [|apply sublist_nil_l].
  apply announce_order.
Qed.

(** X18. After a tick that ran to its end, a tick on the same spreadsheet
    and the same tomorrow sends nothing and changes nothing. *)
Theorem completed_tick_is_not_repeated env env' st :
  ended (check_events send hash env st) = Completed ->
  fetched env' = fetched env ->
  tomorrow_of (now env') = tomorrow_of (now env) ->
  (forall c, get_channel env' c = get_channel env c) ->
  check_events send hash env' (after (check_events send hash env st))
  = mktick (after (check_events send hash env st)) [] Completed.
Proof.
  intros Hend F T G.
  destruct (BotFacts.check_events_frame send hash env st) as [Hc _].
  destruct (channel_id st) as [cid|] eqn:C;
    [|unfold check_events in Hend; rewrite C in Hend; discriminate].
  destruct (get_channel env cid) eqn:Gc;
    [|unfold check_events in Hend; rewrite C, Gc in Hend; discriminate].
  destruct (fetched env) as [| |df] eqn:Fe;
    try (unfold check_events in Hend; rewrite C, Gc, Fe in Hend; discriminate).
  rewrite (BotFacts.check_events_loaded send hash env st cid df C Gc Fe) in *.
  rewrite (BotFacts.check_events_loaded send hash env' _ cid df); try congruence.
  unfold announce_tomorrow in *. rewrite T.
  destruct (tomorrow_of (now env)) as [tm|]; [|discriminate].
  apply announce_nothing_new.
  intros e He Hd. now apply announce_completed_all.
Qed.


(** X21. The status, debug and help actions change nothing and send
    nothing to the channel, whether their answers get through or not. *)
Theorem reporting_commands_change_nothing ctx env action st :
  action = Status \/ action = Debug \/ action = Help ->
  state_after (excel_command send hash CHECK_INTERVAL ctx env action st) = st
  /\ delivered (excel_command send hash CHECK_INTERVAL ctx env action st) = [].
Proof.
  intros [-> | [-> | ->]]; unfold excel_command, reply_and_return.
  - destruct (ctx_send ctx _); auto.
  - destruct (ctx_send ctx Fetching); [|auto].
    destruct (debug_body hash ctx env); [auto|].
    destruct (ctx_send ctx ErrorReply); auto.
  - destruct (ctx_send ctx CommandList); auto.
Qed.

(** X22. The check action without a channel answers that monitoring must
    be started, and runs nothing; with a channel it runs one tick, with
    the state and the messages of [check_events]; when its first answer
    does not get through, no tick is run. *)
Theorem manual_check_is_one_tick ctx env st :
  (channel_id st = None ->
   state_after (excel_command send hash CHECK_INTERVAL ctx env Check st) = st
   /\ delivered (excel_command send hash CHECK_INTERVAL ctx env Check st) = []
   /\ (ctx_send ctx StartFirst = true -> said (excel_command send hash CHECK_INTERVAL ctx env Check st) = [StartFirst]))
  /\ (channel_id st <> None -> ctx_send ctx Checking = true ->
      state_after (excel_command send hash CHECK_INTERVAL ctx env Check st) = after (check_events send hash env st)
      /\ delivered (excel_command send hash CHECK_INTERVAL ctx env Check st) = sent (check_events send hash env st))
  /\ (ctx_send ctx Checking = false ->
      state_after (excel_command send hash CHECK_INTERVAL ctx env Check st) = st
      /\ delivered (excel_command send hash CHECK_INTERVAL ctx env Check st) = []).
Proof.
  unfold excel_command, reply_and_return.
  split; [|split].
  - intros ->. destruct (ctx_send ctx StartFirst); auto.
    repeat split. discriminate.
  - intros C K. destruct (channel_id st); [|contradiction]. rewrite K.
    destruct (ctx_send ctx CheckComplete); auto.
  - intros K. destruct (channel_id st); [rewrite K; auto|].
    destruct (ctx_send ctx StartFirst); auto.
Qed.

(** X23. The start action sets the channel to the one of the command,
    even when its answer does not get through; the task runs afterwards
    if it ran before or if that answer got through; the set is kept. *)
Theorem start_binds_the_channel ctx env st :
  channel_id (state_after (excel_command send hash CHECK_INTERVAL ctx env Start st)) = Some (ctx_channel ctx)
  /\ running (state_after (excel_command send hash CHECK_INTERVAL ctx env Start st))
     = running st || ctx_send ctx (ChannelSet (ctx_channel ctx))
  /\ announced_events (state_after (excel_command send hash CHECK_INTERVAL ctx env Start st)) = announced_events st
  /\ sink (state_after (excel_command send hash CHECK_INTERVAL ctx env Start st)) = sink st
  /\ delivered (excel_command send hash CHECK_INTERVAL ctx env Start st) = [].
Proof.
  unfold excel_command, reply_and_return, running. simpl.
  destruct (ctx_send ctx (ChannelSet (ctx_channel ctx))); simpl.
  - destruct (is_running (task st)) eqn:R; simpl.
    + destruct (ctx_send ctx AlreadyRunning); simpl; rewrite ?R; auto.
    + destruct (ctx_send ctx MonitoringStarted); simpl; auto.
  - rewrite orb_false_r. auto.
Qed.

(** X24. From a state with no channel and no task, a start whose first
    answer gets through, then a stop: the channel is cleared and the
    task still counts as running; the next turn of the loop runs no
    check and ends the task, and the state is the one before the
    start. *)
Theorem start_then_stop_restores ctx ctx' env env' env'' st :
  running st = false -> channel_id st = None ->
  ctx_send ctx (ChannelSet (ctx_channel ctx)) = true ->
  let started := state_after (excel_command send hash CHECK_INTERVAL ctx env Start st) in
  let stopped := state_after (excel_command send hash CHECK_INTERVAL ctx' env' Stop started) in
  task started = Launched false
  /\ channel_id stopped = None
  /\ task stopped = Launched true
  /\ outputs send hash CHECK_INTERVAL (Timer env'') stopped = []
  /\ step send hash CHECK_INTERVAL (Timer env'') stopped = st.
Proof.
  intros R C K. cbv zeta. unfold excel_command, reply_and_return, running in *.
  cbn [task set_channel]. rewrite K, R.
  destruct st as [c a t s]. simpl in *. subst c.
  destruct t; [|discriminate|discriminate].
  destruct (ctx_send ctx MonitoringStarted); simpl;
    destruct (ctx_send ctx' MonitoringStopped); simpl; auto.
Qed.

Lemma command_adds_what_it_sends ctx env action st :
  announced_events (state_after (excel_command send hash CHECK_INTERVAL ctx env action st))
  = announced_events st ∪ list_to_set (ids_of (delivered (excel_command send hash CHECK_INTERVAL ctx env action st)))
  /\ NoDup (ids_of (delivered (excel_command send hash CHECK_INTERVAL ctx env action st)))
  /\ forall d, In d (delivered (excel_command send hash CHECK_INTERVAL ctx env action st)) ->
               unique_id (event d) ∉ announced_events st.
Proof.
  assert (Q : forall st' : State S,
             announced_events st' = announced_events st ->
             announced_events st' = announced_events st ∪ list_to_set (ids_of [])
             /\ NoDup (ids_of []) /\ forall d, In d [] -> unique_id (event d) ∉ announced_events st).
  { intros st' E. rewrite E. split; [simpl; now rewrite (right_id_L ∅ (∪))|].
    split; [constructor|]. intros d []. }
  destruct action; unfold excel_command, reply_and_return.
  - destruct (ctx_send ctx (ChannelSet _)); [|now apply Q].
    destruct (running (set_channel _ st)); destruct (ctx_send ctx _); now apply Q.
  - destruct (running st); destruct (ctx_send ctx _); now apply Q.
  - destruct (ctx_send ctx _); now apply Q.
  - destruct (channel_id st).
    + destruct (ctx_send ctx Checking); [|now apply Q].
      assert (T : announced_events (after (check_events send hash env st))
                  = announced_events st
                    ∪ list_to_set (ids_of (sent (check_events send hash env st)))
                  /\ NoDup (ids_of (sent (check_events send hash env st)))
                  /\ forall d, In d (sent (check_events send hash env st)) ->
                               unique_id (event d) ∉ announced_events st).
      { destruct (tick_adds_what_it_sends env st) as (E & N & _).
        split; [exact E|split; [exact N|]].
        intros d Hd. apply tick_sends_new_events_of_tomorrow in Hd.
        destruct Hd as (df & tm & _ & _ & _ & _ & _ & Hn & _). exact Hn. }
      destruct (ctx_send ctx CheckComplete); exact T.
    + destruct (ctx_send ctx StartFirst); now apply Q.
  - destruct (ctx_send ctx Fetching); [|now apply Q].
    destruct (debug_body hash ctx env); [now apply Q|].
    destruct (ctx_send ctx ErrorReply); now apply Q.
  - destruct (ctx_send ctx CommandList); now apply Q.
Qed.

Lemma step_adds_what_it_sends i st :
  announced_events (step send hash CHECK_INTERVAL i st)
  = announced_events st ∪ list_to_set (ids_of (outputs send hash CHECK_INTERVAL i st))
  /\ NoDup (ids_of (outputs send hash CHECK_INTERVAL i st))
  /\ forall d, In d (outputs send hash CHECK_INTERVAL i st) ->
               unique_id (event d) ∉ announced_events st.
Proof.
  destruct i as [ctx env action|env]; simpl.
  - apply command_adds_what_it_sends.
  - destruct (loop_turn (task st)) as [[|] t]; cbn [fst set_task announced_events].
    + destruct (tick_adds_what_it_sends env st) as (E & N & _).
      split; [exact E|split; [exact N|]].
      intros d Hd. apply tick_sends_new_events_of_tomorrow in Hd.
      destruct Hd as (df & tm & _ & _ & _ & _ & _ & Hn & _). exact Hn.
    + split; [simpl; now rewrite (right_id_L ∅ (∪))|]. split; [constructor|]. intros d [].
Qed.

Lemma ids_of_app ds1 ds2 : ids_of (ds1 ++ ds2) = (ids_of ds1 ++ ids_of ds2)%list.
Proof. apply map_app. Qed.

Lemma run_adds_what_it_sends inputs st :
  announced_events (fst (run send hash CHECK_INTERVAL inputs st))
  = announced_events st
    ∪ list_to_set (ids_of (snd (run send hash CHECK_INTERVAL inputs st)))
  /\ NoDup (ids_of (snd (run send hash CHECK_INTERVAL inputs st)))
  /\ forall id, In id (ids_of (snd (run send hash CHECK_INTERVAL inputs st))) ->
                id ∉ announced_events st.
Proof.
  revert st. induction inputs as [|i rest IH]; intros st; simpl.
  - split; [simpl; now rewrite (right_id_L ∅ (∪))|]. split; [constructor|]. intros id [].
  - destruct (IH (step send hash CHECK_INTERVAL i st)) as (E & N & F).
    destruct (step_adds_what_it_sends i st) as (E1 & N1 & F1).
    destruct (run send hash CHECK_INTERVAL rest (step send hash CHECK_INTERVAL i st))
      as [st' out] eqn:R. simpl in *.
    rewrite ids_of_app. split; [|split].
    + rewrite E, E1, list_to_set_app_L. now rewrite (assoc_L (∪)).
    + apply NoDup_app. split; [exact N1|]. split; [|exact N].
      intros id Hid Hid'. apply list_elem_of_In in Hid, Hid'.
      apply (F id Hid'). rewrite E1. apply elem_of_union_r.
      apply elem_of_list_to_set. now apply list_elem_of_In.
    + intros id Hid. apply in_app_iff in Hid as [Hid|Hid].
      * unfold ids_of in Hid. apply in_map_iff in Hid as (d & <- & Hd). now apply F1.
      * intros Hin. apply (F id Hid). rewrite E1. now apply elem_of_union_l.
Qed.

(** X19. When the commands and the turns of the loop are handled one
    after another, each to its end, so that no check overlaps another:
    over any such sequence from the start of the bot, failed sends
    included, no id is sent twice; the set holds exactly the ids sent,
    and its size, which the status command reports, is the number of
    messages sent. *)
Theorem no_event_is_announced_twice inputs s :
  NoDup (ids_of (snd (run send hash CHECK_INTERVAL inputs (initial s))))
  /\ announced_events (fst (run send hash CHECK_INTERVAL inputs (initial s)))
     = list_to_set (ids_of (snd (run send hash CHECK_INTERVAL inputs (initial s))))
  /\ size (announced_events (fst (run send hash CHECK_INTERVAL inputs (initial s))))
     = length (snd (run send hash CHECK_INTERVAL inputs (initial s))).
Proof.
  destruct (run_adds_what_it_sends inputs (initial s)) as (E & N & _).
  simpl in E. rewrite (left_id_L ∅ (∪)) in E.
  split; [exact N|]. split; [exact E|].
  rewrite E, size_list_to_set by exact N.
  unfold ids_of. apply length_map.
Qed.


End WithConfig.
End WithSink.
Lemma tick_that_stops_early_changes_nothing_example :
  after (check_events accepting length_hash quiet_env (on_channel 7 tt)) = on_channel 7 tt.
Proof.
  refine (proj1 (tick_that_stops_early_changes_nothing accepting length_hash quiet_env
                   (on_channel 7 tt) _ _)).
  - vm_compute. discriminate.
  - intros e. vm_compute. discriminate.
Defined.

Lemma tick_sends_new_events_of_tomorrow_example :
  exists df tomorrow,
    fetched launch_env = Loaded df /\ tomorrow_of (now launch_env) = Some tomorrow
    /\ channel_id (on_channel 7 tt) = Some (to launch_delivery)
    /\ In (event launch_delivery) (parse_event_data length_hash df)
    /\ to_date (date (event launch_delivery)) = tomorrow
    /\ (unique_id (event launch_delivery) ∉ announced_events (on_channel 7 tt))
    /\ message launch_delivery
       = format_event_message (now launch_env) (event launch_delivery).
Proof.
  apply (tick_sends_new_events_of_tomorrow accepting length_hash launch_env
           (on_channel 7 tt) launch_delivery).
  vm_compute. left. reflexivity.
Defined.

Lemma tick_adds_what_it_sends_example :
  NoDup (ids_of (sent (check_events accepting length_hash launch_env (on_channel 7 tt)))).
Proof.
  exact (proj1 (proj2 (tick_adds_what_it_sends accepting length_hash launch_env
                         (on_channel 7 tt)))).
Defined.

Lemma tick_sends_in_sheet_order_example :
  map event (sent (check_events accepting length_hash launch_env (on_channel 7 tt)))
  `sublist_of` parse_event_data length_hash march_frame.
Proof.
  exact (tick_sends_in_sheet_order accepting length_hash launch_env (on_channel 7 tt)
           march_frame eq_refl).
Defined.

Lemma completed_tick_is_not_repeated_example :
  sent (check_events accepting length_hash launch_env
          (after (check_events accepting length_hash launch_env (on_channel 7 tt)))) = [].
Proof.
  rewrite (completed_tick_is_not_repeated accepting length_hash launch_env launch_env
             (on_channel 7 tt)).
  - reflexivity.
  - vm_compute. reflexivity.
  - reflexivity.
  - reflexivity.
  - reflexivity.
Defined.

Lemma no_event_is_announced_twice_example :
  size (announced_events
          (fst (run accepting length_hash 30
                    [Operator (heard 7) launch_env Start; Timer launch_env; Timer launch_env]
                    (initial tt))))
  = length (snd (run accepting length_hash 30
                     [Operator (heard 7) launch_env Start; Timer launch_env; Timer launch_env]
                     (initial tt))).
Proof.
  exact (proj2 (proj2 (no_event_is_announced_twice accepting length_hash 30
                         [Operator (heard 7) launch_env Start; Timer launch_env;
                          Timer launch_env] tt))).
Defined.


Lemma reporting_commands_change_nothing_example :
  state_after (excel_command accepting length_hash 30 (muted 7) launch_env Debug
                             (on_channel 7 tt)) = on_channel 7 tt.
Proof.
  refine (proj1 (reporting_commands_change_nothing accepting length_hash 30 (muted 7)
                   launch_env Debug (on_channel 7 tt) _)).
  right. left. reflexivity.
Defined.

Lemma manual_check_is_one_tick_example :
  delivered (excel_command accepting length_hash 30 (heard 7) launch_env Check
                           (on_channel 7 tt))
  = sent (check_events accepting length_hash launch_env (on_channel 7 tt)).
Proof.
  refine (proj2 (proj1 (proj2 (manual_check_is_one_tick accepting length_hash 30 (heard 7)
                                 launch_env (on_channel 7 tt))) _ _)).
  - discriminate.
  - reflexivity.
Defined.

Lemma start_binds_the_channel_example :
  channel_id (state_after (excel_command accepting length_hash 30 (muted 7) launch_env
                                         Start (initial tt))) = Some 7%Z.
Proof.
  exact (proj1 (start_binds_the_channel accepting length_hash 30 (muted 7) launch_env
                  (initial tt))).
Defined.

Lemma start_then_stop_restores_example :
  step accepting length_hash 30 (Timer launch_env)
    (state_after
       (excel_command accepting length_hash 30 (heard 8) quiet_env Stop
          (state_after (excel_command accepting length_hash 30 (heard 7) quiet_env Start
                                      (initial tt)))))
  = initial tt.
Proof.
  refine (proj2 (proj2 (proj2 (proj2
            (start_then_stop_restores accepting length_hash 30 (heard 7) (heard 8)
               quiet_env quiet_env launch_env (initial tt) _ _ _)))));
    reflexivity.
Defined.

End BotMore.

(** ** Checks that overlap *)
Module OverlapFacts.
Import PyDate Parser Formatter Bot Run Overlap Samples Cases.

Section WithSink.
Context {S : Type}.
Variable send : S -> Z -> Embed -> S * bool.

Implicit Types (st : State S) (events : list Event) (w : Waiting).

Lemma next_new_found tm events known ev rest :
  next_new tm events known = Some (ev, rest) ->
  In ev events /\ to_date (date ev) = tm /\ (unique_id ev ∉ known)
  /\ (length rest < length events)%nat.
Proof.
  induction events as [|e es IH]; simpl; [discriminate|].
  case_bool_decide as Hd.
  - case_bool_decide as Hk.
    + intros H. destruct (IH H) as (? & ? & ? & ?). auto with arith.
    + intros [= <- <-]. auto with arith.
  - intros H. destruct (IH H) as (? & ? & ? & ?). auto with arith.
Qed.

(** The loop of the tick, cut at its sends. *)
Lemma announce_by_sends cid clock tm events st :
  announce send cid clock tm events st
  = match next_new tm events (announced_events st) with
    | None => mktick st [] Completed
    | Some (ev, rest) =>
        let embed := format_event_message clock ev in
        let (s', ok) := send (sink st) cid embed in
        if ok then
          let t := announce send cid clock tm rest
                     (add_announced (unique_id ev) (set_sink s' st)) in
          mktick (after t) (mkdelivery cid ev embed :: sent t) (ended t)
        else mktick (set_sink s' st) [] (SendFailed ev)
    end.
Proof.
  induction events as [|e es IH]; simpl; [reflexivity|].
  case_bool_decide; [|exact IH].
  case_bool_decide; [exact IH|reflexivity].
Qed.

Lemma finish_is_announce n cid clock tm events st :
  (length events <= n)%nat ->
  finish send n (wait_for cid clock tm events st) st
  = (after (announce send cid clock tm events st),
     sent (announce send cid clock tm events st)).
Proof.
  revert events st. induction n as [|n IH]; intros events st Hn.
  - destruct events; [reflexivity|simpl in Hn; lia].
  - rewrite announce_by_sends. unfold wait_for.
    destruct (next_new tm events (announced_events st)) as [[ev rest]|] eqn:N;
      [|reflexivity].
    apply next_new_found in N as (_ & _ & _ & Hlen).
    cbn [finish]. unfold resume. cbn [w_channel w_clock w_event w_tomorrow w_rest].
    cbv zeta.
    destruct (send (sink st) cid (format_event_message clock ev)) as [s' [|]];
      cbn [r_state r_sent r_waiting].
    + rewrite IH by lia. reflexivity.
    + destruct n; reflexivity.
Qed.

Section WithHash.
Variable hash : string -> Z.

Lemma begin_check_found env st w :
  begin_check hash env st = Some w ->
  exists df,
    channel_id st = Some (w_channel w)
    /\ get_channel env (w_channel w) = true
    /\ fetched env = Loaded df
    /\ tomorrow_of (now env) = Some (w_tomorrow w)
    /\ w_clock w = now env
    /\ next_new (w_tomorrow w) (parse_event_data hash df) (announced_events st)
       = Some (w_event w, w_rest w).
Proof.
  unfold begin_check, wait_for.
  destruct (channel_id st) as [cid|]; [|discriminate].
  destruct (get_channel env cid) eqn:G; [|discriminate].
  destruct (fetched env) as [| |df]; try discriminate.
  destruct (tomorrow_of (now env)) as [tm|]; [|discriminate].
  destruct (next_new tm _ _) as [[ev rest]|] eqn:N; [|discriminate].
  intros [= <-]. exists df. simpl. auto 8.
Qed.

(** X27. A check whose sends return before anything else runs is the
    tick: the same state afterwards, the same messages in the same
    order. *)
Theorem uninterrupted_check_is_the_tick env st n :
  (forall df, fetched env = Loaded df ->
              (length (parse_event_data hash df) <= n)%nat) ->
  finish send n (begin_check hash env st) st
  = (after (check_events send hash env st), sent (check_events send hash env st)).
Proof.
  intros Hn. unfold begin_check, check_events, announce_tomorrow.
  destruct (channel_id st) as [cid|]; [|now destruct n].
  destruct (get_channel env cid); [|now destruct n].
  destruct (fetched env) as [| |df]; try now destruct n.
  destruct (tomorrow_of (now env)) as [tm|]; [|now destruct n].
  apply finish_is_announce. now apply Hn.
Qed.

(** X26. Two checks that overlap send the same event twice. When a
    check waits for the send of an event and a second check, of the
    timer or of the check action, begins before that send has
    returned, on the same spreadsheet and the same tomorrow, the second
    waits for the send of the same event; when both sends succeed the
    message of the event goes out twice, the second time with its id in
    the set. A check that begins after the first send has returned
    does not send that event. *)
Theorem overlapping_checks_send_twice env1 env2 st w1 w2 :
  begin_check hash env1 st = Some w1 ->
  begin_check hash env2 st = Some w2 ->
  fetched env2 = fetched env1 ->
  tomorrow_of (now env2) = tomorrow_of (now env1) ->
  (forall s m, snd (send s (w_channel w1) m) = true) ->
  let first := resume send w1 st in
  let second := resume send w2 (r_state first) in
  w_event w2 = w_event w1
  /\ w_channel w2 = w_channel w1
  /\ ids_of (r_sent first ++ r_sent second)
     = [unique_id (w_event w1); unique_id (w_event w1)]
  /\ map to (r_sent first ++ r_sent second) = [w_channel w1; w_channel w1]
  /\ unique_id (w_event w1) ∈ announced_events (r_state first)
  /\ forall env3 w3,
      begin_check hash env3 (r_state first) = Some w3 ->
      unique_id (w_event w3) <> unique_id (w_event w1).
Proof.
  intros B1 B2 F T Hsend first second.
  apply begin_check_found in B1 as (df1 & C1 & _ & F1 & T1 & _ & N1).
  apply begin_check_found in B2 as (df2 & C2 & _ & F2 & T2 & _ & N2).
  assert (Ec : w_channel w2 = w_channel w1) by congruence.
  assert (Ee : w_event w2 = w_event w1).
  { rewrite F, F1 in F2. injection F2 as <-.
    rewrite T, T1 in T2. injection T2 as E. rewrite <- E in N2. congruence. }
  assert (R1 : exists s1,
             first = mkresumed
                       (add_announced (unique_id (w_event w1)) (set_sink s1 st))
                       [mkdelivery (w_channel w1) (w_event w1)
                                   (format_event_message (w_clock w1) (w_event w1))]
                       (wait_for (w_channel w1) (w_clock w1) (w_tomorrow w1) (w_rest w1)
                                 (add_announced (unique_id (w_event w1)) (set_sink s1 st)))).
  { subst first. unfold resume.
    pose proof (Hsend (sink st) (format_event_message (w_clock w1) (w_event w1))) as H.
    destruct (send (sink st) (w_channel w1) _) as [s1 ok]. simpl in H. subst ok.
    now exists s1. }
  destruct R1 as [s1 R1].
  assert (R2 : r_sent second
               = [mkdelivery (w_channel w2) (w_event w2)
                             (format_event_message (w_clock w2) (w_event w2))]).
  { subst second. unfold resume. rewrite Ec.
    pose proof (Hsend (sink (r_state first))
                      (format_event_message (w_clock w2) (w_event w2))) as H.
    destruct (send (sink (r_state first)) (w_channel w1) _) as [s2 ok].
    simpl in H. subst ok. reflexivity. }
  split; [exact Ee|split; [exact Ec|]].
  rewrite R2, R1. cbn [r_sent r_state]. rewrite Ee, Ec.
  split; [reflexivity|split; [reflexivity|split]].
  - cbn [add_announced announced_events].
    apply elem_of_union_l, elem_of_singleton_2. reflexivity.
  - intros env3 w3 B3 E3.
    apply begin_check_found in B3 as (df3 & _ & _ & _ & _ & _ & N3).
    apply next_new_found in N3 as (_ & _ & Hnew & _).
    apply Hnew. rewrite E3. cbn [add_announced announced_events].
    apply elem_of_union_l, elem_of_singleton_2. reflexivity.
Qed.

(** X28. The stop command does not halt a check in flight. A check
    that waits for a send when the stop command runs goes on as if
    nothing had happened, although the channel is cleared: when its
    send returns it has sent its message, and it goes on to the same
    next event. *)
Theorem stop_does_not_halt_a_check_in_flight (CHECK_INTERVAL : Z) ctx env st w :
  let st' := state_after (excel_command send hash CHECK_INTERVAL ctx env Stop st) in
  r_sent (resume send w st') = r_sent (resume send w st)
  /\ r_waiting (resume send w st') = r_waiting (resume send w st)
  /\ (running st = true ->
      channel_id st' = None /\ channel_id (r_state (resume send w st')) = None)
  /\ (snd (send (sink st) (w_channel w)
                (format_event_message (w_clock w) (w_event w))) = true ->
      ids_of (r_sent (resume send w st')) = [unique_id (w_event w)]
      /\ map to (r_sent (resume send w st')) = [w_channel w]).
Proof.
  cbv zeta. rewrite BotFacts.stop_state.
  destruct (running st) eqn:R; unfold resume;
    cbn [sink set_channel set_task];
    destruct (send (sink st) (w_channel w) _) as [s' [|]];
    cbn [r_sent r_waiting r_state channel_id set_sink add_announced set_channel set_task];
    repeat split; try reflexivity; try discriminate.
Qed.

End WithHash.
End WithSink.

Lemma stop_does_not_halt_a_check_in_flight_example :
  channel_id (state_after (excel_command accepting length_hash 30 (heard 7) quiet_env Stop
                                         (on_channel 7 tt))) = None
  /\ ids_of (r_sent (resume accepting launch_wait
                       (state_after (excel_command accepting length_hash 30 (heard 7)
                                                   quiet_env Stop (on_channel 7 tt)))))
     = [unique_id launch].
Proof.
  destruct (stop_does_not_halt_a_check_in_flight accepting length_hash 30 (heard 7)
              quiet_env (on_channel 7 tt) launch_wait) as (_ & _ & C & D).
  split.
  - exact (proj1 (C eq_refl)).
  - exact (proj1 (D eq_refl)).
Defined.

Lemma uninterrupted_check_is_the_tick_example :
  finish accepting 3 (begin_check length_hash launch_env (on_channel 7 tt)) (on_channel 7 tt)
  = (after (check_events accepting length_hash launch_env (on_channel 7 tt)),
     sent (check_events accepting length_hash launch_env (on_channel 7 tt))).
Proof.
  apply (uninterrupted_check_is_the_tick accepting length_hash launch_env (on_channel 7 tt) 3).
  intros df [= <-]. vm_compute. lia.
Defined.

Lemma overlapping_checks_send_twice_example :
  ids_of (r_sent (resume accepting launch_wait (on_channel 7 tt))
          ++ r_sent (resume accepting launch_wait
                            (r_state (resume accepting launch_wait (on_channel 7 tt)))))
  = [unique_id launch; unique_id launch].
Proof.
  refine (proj1 (proj2 (proj2
            (overlapping_checks_send_twice accepting length_hash launch_env launch_env
               (on_channel 7 tt) launch_wait launch_wait _ _ _ _ _)))).
  - vm_compute. reflexivity.
  - vm_compute. reflexivity.
  - reflexivity.
  - reflexivity.
  - intros s m. reflexivity.
Defined.

End OverlapFacts.
